(** * sonar_git_mcp: the commit watcher and the auto-fix pipeline

    A shallow embedding of [sonar_git_mcp.py].  Every tool of the server is a
    sequence of calls into PyGithub, requests, subprocess and the local file
    system, wrapped in [try ... except Exception].  The embedding keeps that
    shape: a tool is a computation in a state-and-exception monad whose state
    is the marker file together with the log of the external calls made so
    far, and whose external answers are read from a [world]. *)

From Stdlib Require Import String Ascii List ZArith Lia Bool DecimalString.
Import ListNotations.
Local Open Scope list_scope.
Local Open Scope string_scope.

(** ** The Python runtime used by the program *)

Module Py.

(** An instance of [Exception]; the program only ever looks at [str(e)].
    Asynchronous [BaseException]s (KeyboardInterrupt, SystemExit) are not
    produced by any call of the program and are outside the model. *)
Inductive exn := Exception (msg : string).

Definition str (e : exn) : string := let 'Exception m := e in m.

(** The outcome of an expression that may raise. *)
Definition res (A : Type) : Type := (exn + A)%type.

Definition res_bind {A B} (c : res A) (k : A -> res B) : res B :=
  match c with
  | inl e => inl e
  | inr a => k a
  end.

(** Values that [json()] produces and that the tools return.  A string is a
    sequence of code points below 256; a float is kept as its binary64 bit
    pattern; a dict is its list of items in insertion order, keys distinct. *)
#[local] Set Warnings "-register-all".
Inductive pyval :=
| PNone
| PBool (b : bool)
| PInt (z : Z)
| PFloat (bits : Z)
| PStr (s : string)
| PList (xs : list pyval)
| PDict (kvs : list (string * pyval)).

Definition type_name (v : pyval) : string :=
  match v with
  | PNone => "NoneType"
  | PBool _ => "bool"
  | PInt _ => "int"
  | PFloat _ => "float"
  | PStr _ => "str"
  | PList _ => "list"
  | PDict _ => "dict"
  end.

(** [bool(v)]: None, False, zero, and empty containers are false. *)
Definition truthy (v : pyval) : bool :=
  match v with
  | PNone => false
  | PBool b => b
  | PInt z => negb (z =? 0)%Z
  | PFloat bits => negb (Z.land bits (2 ^ 63 - 1) =? 0)%Z
  | PStr s => negb (String.length s =? 0)%nat
  | PList xs => negb (length xs =? 0)%nat
  | PDict kvs => negb (length kvs =? 0)%nat
  end.

Fixpoint lookup {A} (k : string) (kvs : list (string * A)) : option A :=
  match kvs with
  | [] => None
  | (k', v) :: rest => if String.eqb k k' then Some v else lookup k rest
  end.

(** [d[k] = v]: replaces the value of an existing key in place, appends a new
    key at the end. *)
Fixpoint dict_set {A} (kvs : list (string * A)) (k : string) (v : A)
  : list (string * A) :=
  match kvs with
  | [] => [(k, v)]
  | (k', v') :: rest =>
      if String.eqb k k' then (k', v) :: rest else (k', v') :: dict_set rest k v
  end.

Definition keys {A} (kvs : list (string * A)) : list string := map fst kvs.

Definition AttributeError (ty attr : string) : exn :=
  Exception ("'" ++ ty ++ "' object has no attribute '" ++ attr ++ "'").

(** [v.get(key, default)]; only dicts have the method. *)
Definition get (v : pyval) (key : string) (default : pyval) : res pyval :=
  match v with
  | PDict kvs =>
      inr (match lookup key kvs with Some x => x | None => default end)
  | _ => inl (AttributeError (type_name v) "get")
  end.

(** [len(v)] *)
Definition len (v : pyval) : res Z :=
  match v with
  | PStr s => inr (Z.of_nat (String.length s))
  | PList xs => inr (Z.of_nat (length xs))
  | PDict kvs => inr (Z.of_nat (length kvs))
  | _ => inl (Exception ("object of type '" ++ type_name v ++ "' has no len()"))
  end.

(** [v[:n]].  Slicing a dict raises TypeError up to CPython 3.11 and KeyError
    from 3.12 on, where slices are hashable; [hashable_slices] selects the
    message. *)
Definition slice_to (hashable_slices : bool) (n : nat) (v : pyval) : res pyval :=
  match v with
  | PStr s => inr (PStr (substring 0 n s))
  | PList xs => inr (PList (firstn n xs))
  | PDict _ =>
      inl (Exception
             (if hashable_slices
              then "slice(None, " ++ NilZero.string_of_int (Z.to_int (Z.of_nat n))
                   ++ ", None)"
              else "unhashable type: 'slice'"))
  | _ => inl (Exception ("'" ++ type_name v ++ "' object is not subscriptable"))
  end.

Fixpoint chars (s : string) : list pyval :=
  match s with
  | EmptyString => []
  | String c s' => PStr (String c EmptyString) :: chars s'
  end.

(** The items a [for] loop sees. *)
Definition iter (v : pyval) : res (list pyval) :=
  match v with
  | PStr s => inr (chars s)
  | PList xs => inr xs
  | PDict kvs => inr (map (fun kv => PStr (fst kv)) kvs)
  | _ => inl (Exception ("'" ++ type_name v ++ "' object is not iterable"))
  end.

(** A list comprehension whose element expression may raise: the first
    element that raises ends it. *)
Fixpoint comprehension {A B} (f : A -> res B) (xs : list A) : res (list B) :=
  match xs with
  | [] => inr []
  | x :: rest =>
      res_bind (f x) (fun y =>
      res_bind (comprehension f rest) (fun ys => inr (y :: ys)))
  end.

(** [str.isspace] on the code points below 256. *)
Definition is_space (c : ascii) : bool :=
  let n := nat_of_ascii c in
  ((9 <=? n) && (n <=? 13) || (28 <=? n) && (n <=? 32)
   || (n =? 133) || (n =? 160))%nat.

Fixpoint lstrip (s : string) : string :=
  match s with
  | EmptyString => EmptyString
  | String c s' => if is_space c then lstrip s' else s
  end.

Fixpoint rstrip (s : string) : string :=
  match s with
  | EmptyString => EmptyString
  | String c s' =>
      match rstrip s' with
      | EmptyString => if is_space c then EmptyString else String c EmptyString
      | r => String c r
      end
  end.

(** [s.strip()] *)
Definition strip (s : string) : string := rstrip (lstrip s).

Definition CR : ascii := ascii_of_nat 13.
Definition LF : ascii := ascii_of_nat 10.

(** What a text-mode [read()] makes of the line ends: "\r\n" and a lone
    "\r" both come back as "\n". *)
Fixpoint universal_newlines (s : string) : string :=
  match s with
  | EmptyString => EmptyString
  | String c s' =>
      if Ascii.eqb c CR
      then String LF (match s' with
                      | String c' s'' =>
                          if Ascii.eqb c' LF then universal_newlines s''
                          else universal_newlines s'
                      | EmptyString => EmptyString
                      end)
      else String c (universal_newlines s')
  end.

Fixpoint join (sep : string) (xs : list string) : string :=
  match xs with
  | [] => ""
  | [x] => x
  | x :: rest => x ++ sep ++ join sep rest
  end.

(** [repr] of a list of plain words (no quotes, backslashes or control
    characters), which is what every command line of the program is. *)
Definition repr_words (argv : list string) : string :=
  "[" ++ join ", " (map (fun a => "'" ++ a ++ "'") argv) ++ "]".

Definition dec (z : Z) : string := NilZero.string_of_int (Z.to_int z).

(** [str(CalledProcessError(returncode, cmd))]; [signal_name] is the
    platform's table behind [signal.Signals]. *)
Definition CalledProcessError
  (signal_name : Z -> option string) (returncode : Z) (cmd : list string) : exn :=
  Exception
    (if (returncode <? 0)%Z
     then match signal_name (- returncode)%Z with
          | Some nm =>
              "Command '" ++ repr_words cmd ++ "' died with <Signals." ++ nm
              ++ ": " ++ dec (- returncode) ++ ">."
          | None =>
              "Command '" ++ repr_words cmd ++ "' died with unknown signal "
              ++ dec (- returncode) ++ "."
          end
     else "Command '" ++ repr_words cmd ++ "' returned non-zero exit status "
          ++ dec returncode ++ ".").

End Py.

Import Py.

(** ** Configuration, external world and program state *)

(** The module-level settings read from the environment at import. *)
Record config := {
  SONARQUBE_URL : string;
  SONARQUBE_TOKEN : string;
  PROJECT_KEY : string;
  GITHUB_TOKEN : string;
  GITHUB_REPO : string;
  GITHUB_USER : string
}.

Definition CLONE_DIR : string := "cloned_repo".
Definition NEW_BRANCH : string := "auto-fix-sonar-issues".
Definition sha_file : string := "last_commit.txt".

(** One entry per call that leaves the program, with its arguments. *)
Inductive event :=
| EvGithub (token : string)
| EvGetRepo (full_name : string)
| EvGetBranch (branch : string)
| EvRead (path : string)
| EvGetWorkflowRuns (branch : string)
| EvTotalCount
| EvFirstRun
| EvWrite (path content : string)
| EvRequestsGet (url : string) (params : list (string * string))
    (auth : string * string)
| EvRaiseForStatus
| EvJson
| EvRun (argv : list string) (cwd : string)
| EvCreatePull (title body head base : string).

(** How [subprocess.run] ends before [check=True] is applied: the child ran
    and left a return code (negative: killed by that signal), or it could not
    be started. *)
Inductive proc_outcome :=
| Exited (returncode : Z)
| NotStarted (e : exn).

(** How [with open(path, "w") as f: f.write(...)] ends: [open] truncates the
    file, so a failure after it leaves the file empty. *)
Inductive write_outcome :=
| Written
| OpenRaises (e : exn)
| WriteRaises (e : exn).

(** The answers of everything outside the program, one field per call site
    (each call site runs at most once per invocation of a tool), as a function
    of the arguments passed there.  A call either raises or returns; of what
    it returns only the part the program reads is kept. *)
Record world := {
  (* the interpreter and the platform *)
  hashable_slices : bool;
  signal_name : Z -> option string;
  (* watch_github_commit: Github(token), get_repo(name),
     get_branch(branch).commit.sha, open/read of the marker (the text itself
     is in the state), get_workflow_runs(branch=branch), .totalCount,
     workflows[0] with its .conclusion (None while the run is not completed),
     open/write of the marker *)
  watch_Github : string -> res unit;
  watch_get_repo : string -> res unit;
  watch_get_branch_sha : string -> res string;
  watch_read : string -> res unit;
  watch_get_workflow_runs : string -> res unit;
  watch_totalCount : string -> res Z;
  watch_first_run_conclusion : string -> res (option string);
  watch_write : string -> string -> write_outcome;
  (* get_sonar_issues: requests.get(url, params, auth),
     response.raise_for_status(), response.json() *)
  requests_get : string -> list (string * string) -> string * string -> res unit;
  raise_for_status : res unit;
  response_json : res pyval;
  (* apply_code_fixes, commit_and_push: subprocess.run(argv, cwd) *)
  subprocess_run : list string -> string -> proc_outcome;
  (* raise_pr: Github(token), get_repo(name),
     create_pull(title, body, head, base).html_url *)
  pr_Github : string -> res unit;
  pr_get_repo : string -> res unit;
  create_pull : string -> string -> string -> string -> res string
}.

(** The marker file ([None]: no such file) and the calls made so far. *)
Record state := {
  marker : option string;
  trace : list event
}.

Definition log (ev : event) (s : state) : state :=
  {| marker := marker s; trace := (trace s ++ [ev])%list |}.

Definition set_marker (m : option string) (s : state) : state :=
  {| marker := m; trace := trace s |}.

(** ** Computations: state threaded through, exceptions propagated *)

Definition M (A : Type) : Type := state -> res A * state.

Definition ret {A} (a : A) : M A := fun s => (inr a, s).

Definition raise {A} (e : exn) : M A := fun s => (inl e, s).

Definition bind {A B} (c : M A) (k : A -> M B) : M B :=
  fun s =>
    match c s with
    | (inl e, s') => (inl e, s')
    | (inr a, s') => k a s'
    end.

(** [try: body  except Exception as e: handler(e)] *)
Definition try_except {A} (body : M A) (handler : exn -> M A) : M A :=
  fun s =>
    match body s with
    | (inl e, s') => handler e s'
    | (inr a, s') => (inr a, s')
    end.

(** A pure expression that may raise. *)
Definition lift {A} (r : res A) : M A := fun s => (r, s).

(** An external call: logged, then answered by the world. *)
Definition call {A} (ev : event) (answer : res A) : M A :=
  fun s => (answer, log ev s).

Declare Scope py_scope.
Delimit Scope py_scope with py.
Notation "x <- c ;; k" := (bind c (fun x => k))
  (at level 61, c at next level, right associativity) : py_scope.
Notation "c ;; k" := (bind c (fun _ => k))
  (at level 61, right associativity) : py_scope.
Local Open Scope py_scope.

(** ** The tools of the server

    [@mcp.tool()] registers a function and leaves its name bound to it, so
    that [full_auto_fix_pipeline] can call the four steps and the watcher can
    call [full_auto_fix_pipeline], as the module does.  Commands started in
    [CLONE_DIR] do not touch the marker file, which lives in the server's own
    working directory. *)

Section Tools.

Variable cfg : config.
Variable w : world.

(** [AUTH = HTTPBasicAuth(SONARQUBE_TOKEN, "")] *)
Definition AUTH : string * string := (SONARQUBE_TOKEN cfg, "").

(** The dict built for one issue [i] inside the comprehension; the five
    [i.get(...)] run in this order and the first to raise ends it. *)
Definition project_issue (i : pyval) : res pyval :=
  res_bind (get i "message" PNone) (fun message =>
  res_bind (get i "severity" PNone) (fun severity =>
  res_bind (get i "type" PNone) (fun type =>
  res_bind (get i "component" PNone) (fun component =>
  res_bind (get i "line" PNone) (fun line =>
  inr (PDict [("message", message); ("severity", severity); ("type", type);
              ("component", component); ("line", line)])))))).

(** The [try] block of [get_sonar_issues]. *)
Definition get_sonar_issues_body : M pyval :=
    (let url := SONARQUBE_URL cfg ++ "/api/issues/search" in
     let params := [("componentKeys", PROJECT_KEY cfg); ("resolved", "false");
                    ("ps", "100")] in
     call (EvRequestsGet url params AUTH) (requests_get w url params AUTH) ;;
     call EvRaiseForStatus (raise_for_status w) ;;
     json <- call EvJson (response_json w) ;;
     issues <- lift (get json "issues" (PList [])) ;;
     if negb (truthy issues)
     then ret (PDict [("status", PStr "No issues found"); ("total", PInt 0);
                      ("issues", PList [])])
     else (total <- lift (len issues) ;;
           first10 <- lift (slice_to (hashable_slices w) 10 issues) ;;
           items <- lift (iter first10) ;;
           projected <- lift (comprehension project_issue items) ;;
           ret (PDict [("status", PStr "Issues found"); ("total", PInt total);
                       ("issues", PList projected)]))).

(** [get_sonar_issues]: the block under its [except Exception as e] clause. *)
Definition get_sonar_issues : M pyval :=
  try_except get_sonar_issues_body
    (fun e => ret (PDict [("error", PStr (str e))])).

(** [subprocess.run(argv, cwd=cwd, check=True)]: a non-zero return code is
    turned into CalledProcessError. *)
Definition check_true (argv : list string) (o : proc_outcome) : res unit :=
  match o with
  | Exited returncode =>
      if (returncode =? 0)%Z then inr tt
      else inl (CalledProcessError (signal_name w) returncode argv)
  | NotStarted e => inl e
  end.

Definition subprocess_run_check (argv : list string) (cwd : string) : M unit :=
  call (EvRun argv cwd) (check_true argv (subprocess_run w argv cwd)).

(** The [try] block of [apply_code_fixes]. *)
Definition apply_code_fixes_body : M string :=
    (subprocess_run_check ["black"; "."] CLONE_DIR ;;
     subprocess_run_check ["isort"; "."] CLONE_DIR ;;
     ret " Code formatted using black and isort.").

(** [apply_code_fixes]: the block under its [except Exception as e] clause. *)
Definition apply_code_fixes : M string :=
  try_except apply_code_fixes_body
    (fun e => ret (" Failed to apply code fixes: " ++ str e)).

(** The [try] block of [commit_and_push]. *)
Definition commit_and_push_body : M string :=
    (subprocess_run_check ["git"; "checkout"; "-b"; NEW_BRANCH] CLONE_DIR ;;
     subprocess_run_check ["git"; "add"; "."] CLONE_DIR ;;
     subprocess_run_check
       ["git"; "commit"; "-m"; "fix: auto-fix based on SonarQube issues"]
       CLONE_DIR ;;
     subprocess_run_check
       ["git"; "push"; "--set-upstream"; "origin"; NEW_BRANCH] CLONE_DIR ;;
     ret (" Changes pushed to branch `" ++ NEW_BRANCH ++ "`.")).

(** [commit_and_push]: the block under its [except Exception as e] clause. *)
Definition commit_and_push : M string :=
  try_except commit_and_push_body
    (fun e => ret (" Git commit/push failed: " ++ str e)).

(** The [try] block of [raise_pr]. *)
Definition raise_pr_body : M pyval :=
    (let title := "Auto-fix: SonarQube violations" in
     let body :=
       "This PR auto-fixes code formatting issues based on SonarQube results." in
     call (EvGithub (GITHUB_TOKEN cfg)) (pr_Github w (GITHUB_TOKEN cfg)) ;;
     call (EvGetRepo (GITHUB_REPO cfg)) (pr_get_repo w (GITHUB_REPO cfg)) ;;
     html_url <- call (EvCreatePull title body NEW_BRANCH "main")
                      (create_pull w title body NEW_BRANCH "main") ;;
     ret (PDict [("url", PStr html_url);
                 ("status", PStr " PR created successfully")])).

(** [raise_pr]: the block under its [except Exception as e] clause. *)
Definition raise_pr : M pyval :=
  try_except raise_pr_body
    (fun e => ret (PDict [("error", PStr (str e))])).

(** No [try] here: the four steps are called one after the other and each
    result is stored under its key. *)
Definition full_auto_fix_pipeline : M pyval :=
  let steps := [] in
  r1 <- get_sonar_issues ;;
  let steps := dict_set steps "get_sonar_issues" r1 in
  r2 <- apply_code_fixes ;;
  let steps := dict_set steps "apply_fixes" (PStr r2) in
  r3 <- commit_and_push ;;
  let steps := dict_set steps "commit_push" (PStr r3) in
  r4 <- raise_pr ;;
  let steps := dict_set steps "create_pr" r4 in
  ret (PDict steps).

(** [os.path.exists(sha_file)] *)
Definition path_exists : M bool :=
  fun s => (inr (match marker s with Some _ => true | None => false end), s).

(** [with open(sha_file, "r") as f: f.read()] *)
Definition read_text : M string :=
  fun s =>
    let s' := log (EvRead sha_file) s in
    match marker s with
    | None =>
        (inl (Exception
                ("[Errno 2] No such file or directory: '" ++ sha_file ++ "'")),
         s')
    | Some content =>
        match watch_read w sha_file with
        | inl e => (inl e, s')
        | inr _ => (inr (universal_newlines content), s')
        end
    end.

(** [with open(sha_file, "w") as f: f.write(content)] *)
Definition write_text (content : string) : M unit :=
  fun s =>
    let s' := log (EvWrite sha_file content) s in
    match watch_write w sha_file content with
    | Written => (inr tt, set_marker (Some content) s')
    | OpenRaises e => (inl e, s')
    | WriteRaises e => (inl e, set_marker (Some "") s')
    end.

(** [latest_commit == previous_sha], a str against a str or None. *)
Definition sha_eqb (latest_commit : string) (previous_sha : option string) : bool :=
  match previous_sha with
  | Some p => String.eqb latest_commit p
  | None => false
  end.

(** [latest_run.conclusion != "success"], the conclusion a str or None. *)
Definition not_success (conclusion : option string) : bool :=
  match conclusion with
  | Some c => negb (String.eqb c "success")
  | None => true
  end.

Definition str_or_None (o : option string) : pyval :=
  match o with
  | Some s => PStr s
  | None => PNone
  end.

(** The [try] block of [watch_github_commit]. *)
Definition watch_github_commit_body (branch : string) : M pyval :=
    (call (EvGithub (GITHUB_TOKEN cfg)) (watch_Github w (GITHUB_TOKEN cfg)) ;;
     call (EvGetRepo (GITHUB_REPO cfg)) (watch_get_repo w (GITHUB_REPO cfg)) ;;
     latest_commit <- call (EvGetBranch branch) (watch_get_branch_sha w branch) ;;
     present <- path_exists ;;
     previous_sha <- (if present
                      then (text <- read_text ;; ret (Some (strip text)))
                      else ret None) ;;
     if sha_eqb latest_commit previous_sha
     then ret (PDict [("status", PStr " No new commits");
                      ("latest_commit", PStr latest_commit)])
     else
       (call (EvGetWorkflowRuns branch) (watch_get_workflow_runs w branch) ;;
        totalCount <- call EvTotalCount (watch_totalCount w branch) ;;
        latest_run <- (if (0 <? totalCount)%Z
                       then (c <- call EvFirstRun
                                    (watch_first_run_conclusion w branch) ;;
                             ret (Some c))
                       else ret None) ;;
        match latest_run with
        | None => ret (PDict [("status", PStr " No recent workflow run found")])
        | Some conclusion =>
            if not_success conclusion
            then ret (PDict [("status", PStr " Build failed or still running");
                             ("build_status", str_or_None conclusion)])
            else
              (write_text latest_commit ;;
               result <- full_auto_fix_pipeline ;;
               ret (PDict [("status",
                            PStr "Build succeeded and commit processed");
                           ("commit", PStr latest_commit);
                           ("pipeline_result", result)]))
        end)).

(** [watch_github_commit]: the block under its [except Exception as e] clause. *)
Definition watch_github_commit (branch : string) : M pyval :=
  try_except (watch_github_commit_body branch)
    (fun e => ret (PDict [("error", PStr (str e))])).

End Tools.

(** The tools the server exposes with their own [try]; [full_auto_fix_pipeline]
    is registered too but has none. *)
Inductive tool :=
| WatchGithubCommit (branch : string)
| GetSonarIssues
| ApplyCodeFixes
| CommitAndPush
| RaisePr.

Definition fmap {A B} (f : A -> B) (c : M A) : M B :=
  fun s =>
    match c s with
    | (inl e, s') => (inl e, s')
    | (inr a, s') => (inr (f a), s')
    end.

(** The [try] block of a tool, its value seen as a Python value. *)
Definition tool_body (cfg : config) (w : world) (t : tool) : M pyval :=
  match t with
  | WatchGithubCommit branch => watch_github_commit_body cfg w branch
  | GetSonarIssues => get_sonar_issues_body cfg w
  | ApplyCodeFixes => fmap PStr (apply_code_fixes_body w)
  | CommitAndPush => fmap PStr (commit_and_push_body w)
  | RaisePr => raise_pr_body cfg w
  end.

(** What the caller of a tool receives. *)
Definition invoke (cfg : config) (w : world) (t : tool) : M pyval :=
  match t with
  | WatchGithubCommit branch => watch_github_commit cfg w branch
  | GetSonarIssues => get_sonar_issues cfg w
  | ApplyCodeFixes => fmap PStr (apply_code_fixes w)
  | CommitAndPush => fmap PStr (commit_and_push w)
  | RaisePr => raise_pr cfg w
  end.

(** A result dictionary with an [error] field holding [str(e)]. *)
Definition error_result (v : pyval) (e : exn) : Prop :=
  exists kvs, v = PDict kvs /\ lookup "error" kvs = Some (PStr (str e)).

(** The hash the watcher compares against: the marker's text as [read()]
    returns it, stripped. *)
Definition stored_hash (content : string) : string :=
  strip (universal_newlines content).

(** The summary the issue fetcher keeps of one issue object. *)
Definition field (issue : list (string * pyval)) (k : string) : pyval :=
  match lookup k issue with
  | Some v => v
  | None => PNone
  end.

Definition issue_summary (issue : list (string * pyval)) : pyval :=
  PDict [("message", field issue "message"); ("severity", field issue "severity");
         ("type", field issue "type"); ("component", field issue "component");
         ("line", field issue "line")].

(** ** Concrete configurations and worlds *)

Module Sample.

Definition cfg : config :=
  {| SONARQUBE_URL := "http://localhost:9000";
     SONARQUBE_TOKEN := "squ_token";
     PROJECT_KEY := "demo";
     GITHUB_TOKEN := "ghp_token";
     GITHUB_REPO := "octo/demo";
     GITHUB_USER := "octo" |}.

Definition head_main : string := "3f2a9c41d7e05b8a6c1f4e2d9b7a30c5e8f1d246".
Definition head_develop : string := "a91b7e02c44d5f6081e3b2c7d9f0a1b2c3d4e5f6".

Definition head_of (branch : string) : res string :=
  if String.eqb branch "main" then inr head_main
  else if String.eqb branch "develop" then inr head_develop
  else inl (Exception "404 Branch not found").

Definition signals (n : Z) : option string :=
  if (n =? 2)%Z then Some "SIGINT"
  else if (n =? 9)%Z then Some "SIGKILL"
  else if (n =? 15)%Z then Some "SIGTERM"
  else None.

(** A world in which every call not named by a parameter succeeds. *)
Definition make
  (count : Z) (conclusion : option string) (written : write_outcome)
  (body : res pyval) (proc : list string -> proc_outcome) (pull : res string)
  : world :=
  {| hashable_slices := false;
     signal_name := signals;
     watch_Github := fun _ => inr tt;
     watch_get_repo := fun _ => inr tt;
     watch_get_branch_sha := head_of;
     watch_read := fun _ => inr tt;
     watch_get_workflow_runs := fun _ => inr tt;
     watch_totalCount := fun _ => inr count;
     watch_first_run_conclusion := fun _ => inr conclusion;
     watch_write := fun _ _ => written;
     requests_get := fun _ _ _ => inr tt;
     raise_for_status := inr tt;
     response_json := body;
     subprocess_run := fun argv _ => proc argv;
     pr_Github := fun _ => inr tt;
     pr_get_repo := fun _ => inr tt;
     create_pull := fun _ _ _ _ => pull |}.

Definition issue (n : Z) : list (string * pyval) :=
  [("key", PStr ("AX-" ++ dec n));
   ("message", PStr "Remove this unused import.");
   ("severity", PStr "MINOR");
   ("type", PStr "CODE_SMELL");
   ("component", PStr "demo:app.py");
   ("line", PInt n)].

Definition issues15 : list (list (string * pyval)) :=
  map issue [1; 2; 3; 4; 5; 6; 7; 8; 9; 10; 11; 12; 13; 14; 15]%Z.

Definition body_of (issues : list (list (string * pyval))) : pyval :=
  PDict [("total", PInt (Z.of_nat (length issues)));
         ("issues", PList (map PDict issues))].

Definition all_exit_0 (argv : list string) : proc_outcome := Exited 0.

(** black leaves return code 1 (or the given code), everything else 0. *)
Definition black_exits (returncode : Z) (argv : list string) : proc_outcome :=
  match argv with
  | "black" :: _ => Exited returncode
  | _ => Exited 0
  end.

Definition pr_url : string := "https://github.com/octo/demo/pull/7".

(** Build green, fifteen issues, every command and call succeeds. *)
Definition green : world :=
  make 3 (Some "success") Written (inr (body_of issues15)) all_exit_0
       (inr pr_url).

(** Build green, but nothing after the marker write works. *)
Definition green_then_failing : world :=
  make 3 (Some "success") Written (inl (Exception "Expecting value"))
       (fun _ => Exited 1) (inl (Exception "422 Validation Failed")).

Definition red : world :=
  make 3 (Some "failure") Written (inr (body_of issues15)) all_exit_0
       (inr pr_url).

Definition no_runs : world :=
  make 0 None Written (inr (body_of issues15)) all_exit_0 (inr pr_url).

Definition clean : world :=
  make 3 (Some "success") Written (inr (body_of [])) all_exit_0 (inr pr_url).

Definition black_fails : world :=
  make 3 (Some "success") Written (inr (body_of issues15)) (black_exits 1)
       (inr pr_url).

Definition fresh : state := {| marker := None; trace := [] |}.
Definition seen (sha : string) : state := {| marker := Some sha; trace := [] |}.

End Sample.

(** What the pipeline returns in [Sample.green]. *)
Definition green_pipeline_result : pyval :=
  Eval vm_compute in
    match fst (full_auto_fix_pipeline Sample.cfg Sample.green Sample.fresh) with
    | inr v => v
    | inl _ => PNone
    end.

(** A quality-server response that arrived, passed [raise_for_status] and
    parsed to [json]. *)
Definition successful_response (cfg : config) (w : world) (json : pyval) : Prop :=
  requests_get w (SONARQUBE_URL cfg ++ "/api/issues/search")
    [("componentKeys", PROJECT_KEY cfg); ("resolved", "false"); ("ps", "100")]
    (AUTH cfg) = inr tt
  /\ raise_for_status w = inr tt
  /\ response_json w = inr json.

(** The three calls the issue fetcher makes. *)
Definition sonar_calls (cfg : config) : list event :=
  [EvRequestsGet (SONARQUBE_URL cfg ++ "/api/issues/search")
     [("componentKeys", PROJECT_KEY cfg); ("resolved", "false"); ("ps", "100")]
     (AUTH cfg);
   EvRaiseForStatus; EvJson].

Definition summary_keys : list string :=
  ["message"; "severity"; "type"; "component"; "line"].

(** [s] after the calls [evs], the marker untouched. *)
Definition after (s : state) (evs : list event) : state :=
  {| marker := marker s; trace := (trace s ++ evs)%list |}.

(** ** How computations act on the state *)

Section Shape.

Context {A : Type}.

(** The computation never lets an exception out. *)
Definition never_raises (c : M A) : Prop :=
  forall s, exists a s', c s = (inr a, s').

(** The computation ignores the state: whatever the marker and the log, it
    ends the same way and appends the same calls, all of them in [P]. *)
Definition emits (P : event -> Prop) (c : M A) : Prop :=
  exists r evs, Forall P evs /\ forall s, c s = (r, after s evs).

End Shape.

(** The computation ignores the state and its first call is [ev]. *)
Definition begins {A} (ev : event) (c : M A) : Prop :=
  exists r evs, forall s, c s = (r, after s (ev :: evs)).

Definition any_event (ev : event) : Prop := True.

(** The first call of each step of the pipeline. *)
Definition first_call_get_sonar_issues (cfg : config) : event :=
  EvRequestsGet (SONARQUBE_URL cfg ++ "/api/issues/search")
    [("componentKeys", PROJECT_KEY cfg); ("resolved", "false"); ("ps", "100")]
    (AUTH cfg).
Definition first_call_apply_code_fixes : event :=
  EvRun ["black"; "."] CLONE_DIR.
Definition first_call_commit_and_push : event :=
  EvRun ["git"; "checkout"; "-b"; NEW_BRANCH] CLONE_DIR.
Definition first_call_raise_pr (cfg : config) : event :=
  EvGithub (GITHUB_TOKEN cfg).

(** The reading of the error-handling rule under which every tool answers an
    exception of its [try] block with an [error] dictionary. *)
Definition catches_into_error_dict (cfg : config) (w : world) (t : tool) : Prop :=
  forall s e s',
    tool_body cfg w t s = (inl e, s') ->
    exists v s'', invoke cfg w t s = (inr v, s'') /\ error_result v e.

Definition pipeline_keys : list string :=
  ["get_sonar_issues"; "apply_fixes"; "commit_push"; "create_pr"].

(** ** What the watcher is given *)

(** The hosting service answered the branch lookup: [latest] is the head of
    [branch]. *)
Definition branch_head (cfg : config) (w : world) (branch latest : string) : Prop :=
  watch_Github w (GITHUB_TOKEN cfg) = inr tt
  /\ watch_get_repo w (GITHUB_REPO cfg) = inr tt
  /\ watch_get_branch_sha w branch = inr latest.

Definition lookup_calls (cfg : config) (branch : string) : list event :=
  [EvGithub (GITHUB_TOKEN cfg); EvGetRepo (GITHUB_REPO cfg); EvGetBranch branch].

(** What the watcher learns from the marker file, and the calls it takes: no
    previous value when the file is absent, the stored hash when it is read. *)
Inductive marker_reads (w : world) (s : state) : option string -> list event -> Prop :=
| marker_absent :
    marker s = None -> marker_reads w s None []
| marker_present content :
    marker s = Some content ->
    watch_read w sha_file = inr tt ->
    marker_reads w s (Some (stored_hash content)) [EvRead sha_file].

(** The build check found a run and its conclusion is "success". *)
Definition build_green (w : world) (branch : string) : Prop :=
  watch_get_workflow_runs w branch = inr tt
  /\ (exists n, watch_totalCount w branch = inr n /\ (0 < n)%Z)
  /\ watch_first_run_conclusion w branch = inr (Some "success").

Definition build_calls (branch : string) : list event :=
  [EvGetWorkflowRuns branch; EvTotalCount; EvFirstRun].

(** The results of the watcher. *)
Definition no_new_commits (latest : string) : pyval :=
  PDict [("status", PStr " No new commits"); ("latest_commit", PStr latest)].

Definition no_run_found : pyval :=
  PDict [("status", PStr " No recent workflow run found")].

Definition build_not_green (conclusion : option string) : pyval :=
  PDict [("status", PStr " Build failed or still running");
         ("build_status", str_or_None conclusion)].

Definition commit_processed (latest : string) (result : pyval) : pyval :=
  PDict [("status", PStr "Build succeeded and commit processed");
         ("commit", PStr latest); ("pipeline_result", result)].

(** The calls that only the pipeline and the marker write make. *)
Definition past_the_checks (ev : event) : bool :=
  match ev with
  | EvWrite _ _ | EvRequestsGet _ _ _ | EvRaiseForStatus | EvJson
  | EvRun _ _ | EvCreatePull _ _ _ _ => true
  | _ => false
  end.

(** The targets the publisher is allowed: the branch created and pushed is
    [NEW_BRANCH], the pull request goes from [NEW_BRANCH] into "main". *)
Definition fixed_targets (ev : event) : Prop :=
  match ev with
  | EvRun ("git" :: "checkout" :: rest) _ => rest = ["-b"; "auto-fix-sonar-issues"]
  | EvRun ("git" :: "push" :: rest) _ =>
      rest = ["--set-upstream"; "origin"; "auto-fix-sonar-issues"]
  | EvCreatePull _ _ head base => head = "auto-fix-sonar-issues" /\ base = "main"
  | _ => True
  end.

(** A commit hash as the hosting service gives it: hexadecimal digits. *)
Definition hex_digit (c : ascii) : bool :=
  let n := nat_of_ascii c in
  ((48 <=? n) && (n <=? 57) || (97 <=? n) && (n <=? 102))%nat.

Fixpoint all_chars (p : ascii -> bool) (s : string) : bool :=
  match s with
  | EmptyString => true
  | String c s' => p c && all_chars p s'
  end.

Definition commit_hash (s : string) : bool := all_chars hex_digit s.

(** The value stored under [pipeline_result] in what a tool returned. *)
Definition pipeline_result_of (r : res pyval) : option pyval :=
  match r with
  | inr (PDict kvs) => lookup "pipeline_result" kvs
  | _ => None
  end.

(** ** Further vocabulary for the properties *)

Definition is_dict (v : pyval) : bool :=
  match v with PDict _ => true | _ => false end.

Definition is_list (v : pyval) : bool :=
  match v with PList _ => true | _ => false end.

(** The [error] dictionary of the three tools that return one. *)
Definition error_dict (e : exn) : pyval := PDict [("error", PStr (str e))].

Definition no_issues_found : pyval :=
  PDict [("status", PStr "No issues found"); ("total", PInt 0);
         ("issues", PList [])].

Definition issues_found (total : Z) (summaries : list pyval) : pyval :=
  PDict [("status", PStr "Issues found"); ("total", PInt total);
         ("issues", PList summaries)].

(** The four command lines of [commit_and_push], in the order they are run. *)
Definition git_commands : list (list string) :=
  [["git"; "checkout"; "-b"; NEW_BRANCH];
   ["git"; "add"; "."];
   ["git"; "commit"; "-m"; "fix: auto-fix based on SonarQube issues"];
   ["git"; "push"; "--set-upstream"; "origin"; NEW_BRANCH]].

Definition runs_in_clone (argvs : list (list string)) : list event :=
  map (fun argv => EvRun argv CLONE_DIR) argvs.

Definition formatted_message : string := " Code formatted using black and isort.".
Definition pushed_message : string :=
  " Changes pushed to branch `auto-fix-sonar-issues`.".

(** The three calls of [raise_pr]. *)
Definition pr_calls (cfg : config) : list event :=
  [EvGithub (GITHUB_TOKEN cfg); EvGetRepo (GITHUB_REPO cfg);
   EvCreatePull "Auto-fix: SonarQube violations"
     "This PR auto-fixes code formatting issues based on SonarQube results."
     NEW_BRANCH "main"].

Definition pr_created (html_url : string) : pyval :=
  PDict [("url", PStr html_url); ("status", PStr " PR created successfully")].

(** More worlds: [Sample.green] with some answers replaced. *)
Module Variant.

Definition sonar (get status : res unit) (body : res pyval) : world :=
  let w := Sample.green in
  {| hashable_slices := hashable_slices w;
     signal_name := signal_name w;
     watch_Github := watch_Github w;
     watch_get_repo := watch_get_repo w;
     watch_get_branch_sha := watch_get_branch_sha w;
     watch_read := watch_read w;
     watch_get_workflow_runs := watch_get_workflow_runs w;
     watch_totalCount := watch_totalCount w;
     watch_first_run_conclusion := watch_first_run_conclusion w;
     watch_write := watch_write w;
     requests_get := fun _ _ _ => get;
     raise_for_status := status;
     response_json := body;
     subprocess_run := subprocess_run w;
     pr_Github := pr_Github w;
     pr_get_repo := pr_get_repo w;
     create_pull := create_pull w |}.

Definition watcher (github repo read : res unit) : world :=
  let w := Sample.green in
  {| hashable_slices := hashable_slices w;
     signal_name := signal_name w;
     watch_Github := fun _ => github;
     watch_get_repo := fun _ => repo;
     watch_get_branch_sha := watch_get_branch_sha w;
     watch_read := fun _ => read;
     watch_get_workflow_runs := watch_get_workflow_runs w;
     watch_totalCount := watch_totalCount w;
     watch_first_run_conclusion := watch_first_run_conclusion w;
     watch_write := watch_write w;
     requests_get := requests_get w;
     raise_for_status := raise_for_status w;
     response_json := response_json w;
     subprocess_run := subprocess_run w;
     pr_Github := pr_Github w;
     pr_get_repo := pr_get_repo w;
     create_pull := create_pull w |}.

Definition body (issues : pyval) : pyval :=
  PDict [("total", PInt 250); ("issues", issues)].

(** Ten issue objects followed by two entries that are no objects. *)
Definition ten_then_junk : list pyval :=
  (map PDict (firstn 10 Sample.issues15) ++ [PNone; PInt 7])%list.

(** Two issue objects, then a string where an object should be. *)
Definition two_then_string : list pyval :=
  (map PDict (firstn 2 Sample.issues15) ++ [PStr "oops"; PDict []])%list.

(** The named tool leaves the given return code, every other command 0. *)
Definition exits (tool : string) (returncode : Z) (argv : list string)
  : proc_outcome :=
  match argv with
  | name :: _ => if String.eqb name tool then Exited returncode else Exited 0
  | [] => Exited 0
  end.

(** [git commit] finds nothing to commit and exits 1. *)
Definition nothing_to_commit (argv : list string) : proc_outcome :=
  match argv with
  | "git" :: "commit" :: _ => Exited 1
  | _ => Exited 0
  end.

Definition commands (proc : list string -> proc_outcome) : world :=
  Sample.make 3 (Some "success") Written (inr (Sample.body_of Sample.issues15))
    proc (inr Sample.pr_url).

Definition pull_refused : world :=
  Sample.make 3 (Some "success") Written (inr (Sample.body_of Sample.issues15))
    Sample.all_exit_0 (inl (Exception "422 A pull request already exists")).

Definition write_fails (o : write_outcome) : world :=
  Sample.make 3 (Some "success") o (inr (Sample.body_of Sample.issues15))
    Sample.all_exit_0 (inr Sample.pr_url).

End Variant.

(** * Properties *)

Create HintDb shape.

Lemma after_nil s : after s [] = s.
Proof. destruct s; unfold after; cbn. now rewrite app_nil_r. Qed.

Lemma after_after s evs1 evs2 :
  after (after s evs1) evs2 = after s (evs1 ++ evs2).
Proof. unfold after; cbn. now rewrite app_assoc. Qed.

Lemma log_after s ev : log ev s = after s [ev].
Proof. reflexivity. Qed.

Lemma emits_ret {A} P (a : A) : emits P (ret a).
Proof. exists (inr a), []. split; [constructor | intros s; now rewrite after_nil]. Qed.

Lemma emits_lift {A} P (r : res A) : emits P (lift r).
Proof. exists r, []. split; [constructor | intros s; now rewrite after_nil]. Qed.

Lemma emits_call {A} (P : event -> Prop) ev (r : res A) : P ev -> emits P (call ev r).
Proof. intros HP. exists r, [ev]. split; [now repeat constructor | reflexivity]. Qed.

Lemma emits_bind {A B} P (c : M A) (k : A -> M B) :
  emits P c -> (forall a, emits P (k a)) -> emits P (bind c k).
Proof.
  intros (r & evs & HP & Hc) Hk. destruct r as [e | a].
  - exists (inl e), evs. split; [assumption |].
    intros s. unfold bind. now rewrite Hc.
  - destruct (Hk a) as (r' & evs' & HP' & Hka).
    exists r', (evs ++ evs')%list. split; [apply Forall_app; now split |].
    intros s. unfold bind. now rewrite Hc, Hka, after_after.
Qed.

Lemma emits_try_except {A} P (body : M A) (handler : exn -> M A) :
  emits P body -> (forall e, emits P (handler e)) -> emits P (try_except body handler).
Proof.
  intros (r & evs & HP & Hc) Hh. destruct r as [e | a].
  - destruct (Hh e) as (r' & evs' & HP' & Hhe).
    exists r', (evs ++ evs')%list. split; [apply Forall_app; now split |].
    intros s. unfold try_except. now rewrite Hc, Hhe, after_after.
  - exists (inr a), evs. split; [assumption |].
    intros s. unfold try_except. now rewrite Hc.
Qed.

Lemma try_except_never_raises {A} (body : M A) (handler : exn -> M A) :
  (forall e, never_raises (handler e)) -> never_raises (try_except body handler).
Proof.
  intros Hh s. unfold try_except.
  destruct (body s) as [[e | a] s']; [apply Hh | eauto].
Qed.

Lemma ret_never_raises {A} (a : A) : never_raises (ret a).
Proof. intros s. now exists a, s. Qed.

Lemma fmap_never_raises {A B} (f : A -> B) (c : M A) :
  never_raises c -> never_raises (fmap f c).
Proof.
  intros Hc s. destruct (Hc s) as (a & s' & E).
  exists (f a), s'. unfold fmap. now rewrite E.
Qed.

#[local] Hint Resolve emits_ret emits_lift emits_call emits_bind
  emits_try_except ret_never_raises try_except_never_raises
  fmap_never_raises : shape.

(** ** The issue fetcher *)

Lemma get_dict kvs k : get (PDict kvs) k PNone = inr (field kvs k).
Proof. reflexivity. Qed.

Lemma comprehension_project_issue issues :
  comprehension project_issue (map PDict issues) = inr (map issue_summary issues).
Proof.
  induction issues as [| d rest IH]; [reflexivity |].
  cbn [map comprehension]. rewrite IH.
  unfold project_issue. now rewrite !get_dict.
Qed.

(** What [get_sonar_issues] does with a parsed response, through all of its
    branches. *)
Lemma get_sonar_issues_on_response cfg w s json :
  successful_response cfg w json ->
  get_sonar_issues cfg w s =
  (match
     res_bind (get json "issues" (PList [])) (fun issues =>
     if negb (truthy issues)
     then inr (PDict [("status", PStr "No issues found"); ("total", PInt 0);
                      ("issues", PList [])])
     else
       res_bind (len issues) (fun total =>
       res_bind (slice_to (hashable_slices w) 10 issues) (fun first10 =>
       res_bind (iter first10) (fun items =>
       res_bind (comprehension project_issue items) (fun projected =>
       inr (PDict [("status", PStr "Issues found"); ("total", PInt total);
                   ("issues", PList projected)]))))))
   with
   | inl e => inr (PDict [("error", PStr (str e))])
   | inr v => inr v
   end,
   after s (sonar_calls cfg)).
Proof.
  intros (Hget & Hstatus & Hjson).
  unfold get_sonar_issues, get_sonar_issues_body, try_except, bind, call, lift, ret.
  rewrite Hget, Hstatus, Hjson.
  unfold res_bind, after, sonar_calls, log; cbn [marker trace].
  rewrite <- !app_assoc; cbn [app].
  destruct (get json "issues" (PList [])) as [e | issues]; [reflexivity |].
  destruct (negb (truthy issues)); [reflexivity |].
  destruct (len issues) as [e | total]; [reflexivity |].
  destruct (slice_to (hashable_slices w) 10 issues) as [e | first10]; [reflexivity |].
  destruct (iter first10) as [e | items]; [reflexivity |].
  destruct (comprehension project_issue items) as [e | projected]; reflexivity.
Qed.

(** C5: a successful response whose issue list holds N > 10 issue objects
    yields total N and the summaries of exactly the first ten, in response
    order, each with exactly the keys message, severity, type, component,
    line. *)
Theorem get_sonar_issues_first_ten cfg w s body issues :
  successful_response cfg w (PDict body) ->
  lookup "issues" body = Some (PList (map PDict issues)) ->
  10 < length issues ->
  get_sonar_issues cfg w s =
    (inr (PDict [("status", PStr "Issues found");
                 ("total", PInt (Z.of_nat (length issues)));
                 ("issues", PList (map issue_summary (firstn 10 issues)))]),
     after s (sonar_calls cfg))
  /\ length (map issue_summary (firstn 10 issues)) = 10
  /\ (forall i, i < 10 ->
        nth_error (map issue_summary (firstn 10 issues)) i
        = option_map issue_summary (nth_error issues i))
  /\ Forall (fun summary => exists kvs, summary = PDict kvs /\ keys kvs = summary_keys)
            (map issue_summary (firstn 10 issues)).
Proof.
  intros Hresp Hissues Hlen. repeat split.
  - rewrite (get_sonar_issues_on_response cfg w s _ Hresp).
    unfold get. rewrite Hissues. cbn [res_bind].
    destruct issues as [| d rest]; [cbn in Hlen; lia |].
    cbn [truthy negb length map Nat.eqb res_bind len].
    cbn [slice_to res_bind iter].
    rewrite <- (map_cons PDict d rest), firstn_map, comprehension_project_issue.
    cbn [res_bind]. now rewrite length_map.
  - rewrite length_map. apply firstn_length_le. lia.
  - intros i Hi. rewrite nth_error_map. f_equal.
    rewrite nth_error_firstn.
    destruct (Nat.ltb_spec i 10); [reflexivity | lia].
  - apply Forall_forall. intros summary Hin.
    apply in_map_iff in Hin. destruct Hin as (d & <- & _).
    eexists. split; reflexivity.
Qed.

Lemma get_sonar_issues_first_ten_witness :
  get_sonar_issues Sample.cfg Sample.green Sample.fresh =
    (inr (PDict [("status", PStr "Issues found");
                 ("total", PInt 15);
                 ("issues", PList (map issue_summary (firstn 10 Sample.issues15)))]),
     after Sample.fresh (sonar_calls Sample.cfg)).
Proof.
  refine (proj1 (get_sonar_issues_first_ten Sample.cfg Sample.green Sample.fresh
                   [("total", PInt 15); ("issues", PList (map PDict Sample.issues15))]
                   Sample.issues15 _ _ _)).
  - repeat split.
  - reflexivity.
  - cbn. lia.
Defined.

(** C6: a successful response whose issue list is empty yields total 0 and an
    empty issues list, and no error result. *)
Theorem get_sonar_issues_none_found cfg w s body :
  successful_response cfg w (PDict body) ->
  lookup "issues" body = Some (PList []) \/ lookup "issues" body = None ->
  get_sonar_issues cfg w s =
    (inr (PDict [("status", PStr "No issues found"); ("total", PInt 0);
                 ("issues", PList [])]),
     after s (sonar_calls cfg))
  /\ forall e, ~ error_result
                   (PDict [("status", PStr "No issues found"); ("total", PInt 0);
                           ("issues", PList [])]) e.
Proof.
  intros Hresp Hissues. split.
  - rewrite (get_sonar_issues_on_response cfg w s _ Hresp).
    unfold get. now destruct Hissues as [-> | ->].
  - intros e (kvs & Heq & Hlook). injection Heq as <-. discriminate Hlook.
Qed.

Lemma get_sonar_issues_none_found_witness :
  get_sonar_issues Sample.cfg Sample.clean Sample.fresh =
    (inr (PDict [("status", PStr "No issues found"); ("total", PInt 0);
                 ("issues", PList [])]),
     after Sample.fresh (sonar_calls Sample.cfg)).
Proof.
  refine (proj1 (get_sonar_issues_none_found Sample.cfg Sample.clean Sample.fresh
                   [("total", PInt 0); ("issues", PList [])] _ _)).
  - repeat split.
  - left. reflexivity.
Defined.

(** ** The four steps: total, blind to the state, each with a first call *)

Lemma begins_call_bind {A B} ev (r : res A) (k : A -> M B) :
  (forall a, emits any_event (k a)) -> begins ev (bind (call ev r) k).
Proof.
  intros Hk. destruct r as [e | a].
  - exists (inl e), []. reflexivity.
  - destruct (Hk a) as (r' & evs & _ & Hka).
    exists r', evs. intros s. unfold bind, call.
    now rewrite Hka, log_after, after_after.
Qed.

Lemma begins_try_except {A} ev (body : M A) (handler : exn -> M A) :
  begins ev body -> (forall e, emits any_event (handler e)) ->
  begins ev (try_except body handler).
Proof.
  intros (r & evs & Hb) Hh. destruct r as [e | a].
  - destruct (Hh e) as (r' & evs' & _ & Hhe).
    exists r', (evs ++ evs')%list. intros s. unfold try_except.
    now rewrite Hb, Hhe, after_after.
  - exists (inr a), evs. intros s. unfold try_except. now rewrite Hb.
Qed.

(** Walks through a computation built from [bind], [call], [lift], [ret],
    conditionals and [try_except], leaving the side conditions on events. *)
Ltac walk :=
  repeat first
    [ apply emits_ret
    | apply emits_lift
    | apply emits_call
    | apply emits_bind
    | apply emits_try_except
    | intro
    | match goal with
      | |- emits _ (if ?b then _ else _) => destruct b
      | |- emits _ (match ?x with _ => _ end) => destruct x
      end ].

Lemma get_sonar_issues_begins cfg w :
  begins (first_call_get_sonar_issues cfg) (get_sonar_issues cfg w).
Proof.
  unfold get_sonar_issues, get_sonar_issues_body. cbv zeta.
  apply begins_try_except; [apply begins_call_bind |]; walk; exact I.
Qed.

Lemma apply_code_fixes_begins w :
  begins first_call_apply_code_fixes (apply_code_fixes w).
Proof.
  unfold apply_code_fixes, apply_code_fixes_body, subprocess_run_check.
  apply begins_try_except; [apply begins_call_bind |]; walk; exact I.
Qed.

Lemma commit_and_push_begins w :
  begins first_call_commit_and_push (commit_and_push w).
Proof.
  unfold commit_and_push, commit_and_push_body, subprocess_run_check.
  apply begins_try_except; [apply begins_call_bind |]; walk; exact I.
Qed.

Lemma raise_pr_begins cfg w :
  begins (first_call_raise_pr cfg) (raise_pr cfg w).
Proof.
  unfold raise_pr, raise_pr_body. cbv zeta.
  apply begins_try_except; [apply begins_call_bind |]; walk; exact I.
Qed.

Lemma get_sonar_issues_never_raises cfg w : never_raises (get_sonar_issues cfg w).
Proof. unfold get_sonar_issues. auto with shape. Qed.

Lemma apply_code_fixes_never_raises w : never_raises (apply_code_fixes w).
Proof. unfold apply_code_fixes. auto with shape. Qed.

Lemma commit_and_push_never_raises w : never_raises (commit_and_push w).
Proof. unfold commit_and_push. auto with shape. Qed.

Lemma raise_pr_never_raises cfg w : never_raises (raise_pr cfg w).
Proof. unfold raise_pr. auto with shape. Qed.

(** A step that never raises and begins with [ev] returns a value fixed by
    the world alone and logs [ev] first. *)
Lemma step_runs {A} ev (c : M A) :
  never_raises c -> begins ev c ->
  exists a evs, forall s, c s = (inr a, after s (ev :: evs)).
Proof.
  intros Hn (r & evs & Hc). destruct r as [e | a].
  - destruct (Hn {| marker := None; trace := [] |}) as (a & s' & E).
    rewrite Hc in E. discriminate E.
  - now exists a, evs.
Qed.

(** The pipeline as the four steps run one after the other. *)
Lemma full_auto_fix_pipeline_runs cfg w :
  exists r1 r2 r3 r4 evs1 evs2 evs3 evs4,
    (forall s, get_sonar_issues cfg w s
               = (inr r1, after s (first_call_get_sonar_issues cfg :: evs1)))
    /\ (forall s, apply_code_fixes w s
                  = (inr r2, after s (first_call_apply_code_fixes :: evs2)))
    /\ (forall s, commit_and_push w s
                  = (inr r3, after s (first_call_commit_and_push :: evs3)))
    /\ (forall s, raise_pr cfg w s
                  = (inr r4, after s (first_call_raise_pr cfg :: evs4)))
    /\ (forall s, full_auto_fix_pipeline cfg w s
                  = (inr (PDict [("get_sonar_issues", r1);
                                 ("apply_fixes", PStr r2);
                                 ("commit_push", PStr r3);
                                 ("create_pr", r4)]),
                     after s ((first_call_get_sonar_issues cfg :: evs1)
                              ++ (first_call_apply_code_fixes :: evs2)
                              ++ (first_call_commit_and_push :: evs3)
                              ++ (first_call_raise_pr cfg :: evs4)))).
Proof.
  destruct (step_runs _ _ (get_sonar_issues_never_raises cfg w)
              (get_sonar_issues_begins cfg w)) as (r1 & evs1 & H1).
  destruct (step_runs _ _ (apply_code_fixes_never_raises w)
              (apply_code_fixes_begins w)) as (r2 & evs2 & H2).
  destruct (step_runs _ _ (commit_and_push_never_raises w)
              (commit_and_push_begins w)) as (r3 & evs3 & H3).
  destruct (step_runs _ _ (raise_pr_never_raises cfg w)
              (raise_pr_begins cfg w)) as (r4 & evs4 & H4).
  exists r1, r2, r3, r4, evs1, evs2, evs3, evs4.
  repeat split; try assumption.
  intros s. unfold full_auto_fix_pipeline, bind, ret.
  rewrite H1, H2, H3, H4, !after_after. reflexivity.
Qed.

(** C4: every run of the pipeline returns a mapping with exactly the keys
    get_sonar_issues, apply_fixes, commit_push, create_pr, holding the results
    of the four steps run in that order; each step runs (its first call is
    logged) whatever the earlier steps returned. *)
Theorem full_auto_fix_pipeline_four_steps cfg w s :
  exists r1 r2 r3 r4 s1 s2 s3 s4 steps,
    get_sonar_issues cfg w s = (inr r1, s1)
    /\ apply_code_fixes w s1 = (inr r2, s2)
    /\ commit_and_push w s2 = (inr r3, s3)
    /\ raise_pr cfg w s3 = (inr r4, s4)
    /\ full_auto_fix_pipeline cfg w s = (inr (PDict steps), s4)
    /\ steps = [("get_sonar_issues", r1); ("apply_fixes", PStr r2);
                ("commit_push", PStr r3); ("create_pr", r4)]
    /\ keys steps = pipeline_keys
    /\ exists evs1 evs2 evs3 evs4,
         s1 = after s (first_call_get_sonar_issues cfg :: evs1)
         /\ s2 = after s1 (first_call_apply_code_fixes :: evs2)
         /\ s3 = after s2 (first_call_commit_and_push :: evs3)
         /\ s4 = after s3 (first_call_raise_pr cfg :: evs4).
Proof.
  destruct (full_auto_fix_pipeline_runs cfg w)
    as (r1 & r2 & r3 & r4 & evs1 & evs2 & evs3 & evs4 & H1 & H2 & H3 & H4 & H).
  exists r1, r2, r3, r4.
  eexists; eexists; eexists; eexists; eexists.
  split; [apply H1 |]. split; [apply H2 |]. split; [apply H3 |].
  split; [apply H4 |].
  split; [rewrite H, !after_after; reflexivity |].
  split; [reflexivity |]. split; [reflexivity |].
  exists evs1, evs2, evs3, evs4. repeat split.
Qed.

(** C1, as the code has it: no tool lets an exception out, and an exception
    raised in its [try] block is answered with [{"error": str(e)}] by
    watch_github_commit, get_sonar_issues and raise_pr, and with a plain
    string ending in [str(e)] by apply_code_fixes and commit_and_push. *)
Theorem tools_catch_every_exception cfg w t s :
  (exists v s', invoke cfg w t s = (inr v, s'))
  /\ forall e s',
       tool_body cfg w t s = (inl e, s') ->
       match t with
       | ApplyCodeFixes =>
           invoke cfg w t s
           = (inr (PStr (" Failed to apply code fixes: " ++ str e)), s')
       | CommitAndPush =>
           invoke cfg w t s
           = (inr (PStr (" Git commit/push failed: " ++ str e)), s')
       | _ =>
           invoke cfg w t s = (inr (PDict [("error", PStr (str e))]), s')
           /\ error_result (PDict [("error", PStr (str e))]) e
       end.
Proof.
  split.
  - destruct t; cbn [invoke];
      [ unfold watch_github_commit | apply get_sonar_issues_never_raises
      | apply fmap_never_raises, apply_code_fixes_never_raises
      | apply fmap_never_raises, commit_and_push_never_raises
      | apply raise_pr_never_raises ].
    apply try_except_never_raises. intros e. apply ret_never_raises.
  - intros e s' Hbody. destruct t; cbn [invoke tool_body] in *.
    + unfold watch_github_commit, try_except. rewrite Hbody.
      split; [reflexivity | eexists; split; reflexivity].
    + unfold get_sonar_issues, try_except. rewrite Hbody.
      split; [reflexivity | eexists; split; reflexivity].
    + unfold fmap in Hbody |- *. unfold apply_code_fixes, try_except.
      destruct (apply_code_fixes_body w s) as [[e0 | a] s0];
        [injection Hbody as -> -> | discriminate Hbody]. reflexivity.
    + unfold fmap in Hbody |- *. unfold commit_and_push, try_except.
      destruct (commit_and_push_body w s) as [[e0 | a] s0];
        [injection Hbody as -> -> | discriminate Hbody]. reflexivity.
    + unfold raise_pr, try_except. rewrite Hbody.
      split; [reflexivity | eexists; split; reflexivity].
Qed.

Lemma tools_catch_every_exception_witness :
  invoke Sample.cfg Sample.green (WatchGithubCommit "release") Sample.fresh
  = (inr (PDict [("error", PStr "404 Branch not found")]),
     after Sample.fresh [EvGithub "ghp_token"; EvGetRepo "octo/demo";
                         EvGetBranch "release"])
  /\ invoke Sample.cfg Sample.black_fails ApplyCodeFixes Sample.fresh
     = (inr (PStr (" Failed to apply code fixes: "
                   ++ "Command '['black', '.']' returned non-zero exit status 1.")),
        after Sample.fresh [EvRun ["black"; "."] CLONE_DIR]).
Proof.
  split.
  - refine (proj1 (proj2 (tools_catch_every_exception Sample.cfg Sample.green
                            (WatchGithubCommit "release") Sample.fresh)
                     (Exception "404 Branch not found") _ _)).
    reflexivity.
  - refine (proj2 (tools_catch_every_exception Sample.cfg Sample.black_fails
                     ApplyCodeFixes Sample.fresh)
              (Exception "Command '['black', '.']' returned non-zero exit status 1.")
              _ _).
    reflexivity.
Defined.

(** C1 as stated fails: when black exits with status 1, apply_code_fixes
    returns a string, which is no dictionary with an [error] field. *)
Lemma apply_code_fixes_error_is_a_string :
  tool_body Sample.cfg Sample.black_fails ApplyCodeFixes Sample.fresh
  = (inl (Exception "Command '['black', '.']' returned non-zero exit status 1."),
     after Sample.fresh [EvRun ["black"; "."] CLONE_DIR])
  /\ invoke Sample.cfg Sample.black_fails ApplyCodeFixes Sample.fresh
     = (inr (PStr " Failed to apply code fixes: Command '['black', '.']' returned non-zero exit status 1."),
        after Sample.fresh [EvRun ["black"; "."] CLONE_DIR])
  /\ ~ catches_into_error_dict Sample.cfg Sample.black_fails ApplyCodeFixes.
Proof.
  split; [reflexivity |]. split; [reflexivity |].
  intros H.
  destruct (H Sample.fresh _ _ eq_refl) as (v & s'' & Hinv & kvs & Hv & _).
  vm_compute in Hinv. injection Hinv as <- _. discriminate Hv.
Qed.

Lemma prefix_append (p t : string) : String.prefix p (p ++ t) = true.
Proof.
  induction p as [| c p IH]; cbn; [now destruct t |].
  destruct (ascii_dec c c) as [_ | Hne]; [exact IH | now elim Hne].
Qed.

(** C7: when black exits non-zero, apply_code_fixes returns the failure
    marker followed by the text of the CalledProcessError, and the only
    command run is black: isort is not started. *)
Theorem apply_code_fixes_black_fails w s returncode :
  subprocess_run w ["black"; "."] CLONE_DIR = Exited returncode ->
  returncode <> 0%Z ->
  exists text result,
    text = str (CalledProcessError (signal_name w) returncode ["black"; "."])
    /\ result = " Failed to apply code fixes: " ++ text
    /\ String.prefix " Failed to apply code fixes: " result = true
    /\ apply_code_fixes w s = (inr result, after s [EvRun ["black"; "."] CLONE_DIR])
    /\ forall ev, In ev (trace (snd (apply_code_fixes w s))) ->
                  In ev (trace s) \/ ev = EvRun ["black"; "."] CLONE_DIR.
Proof.
  intros Hrun Hrc.
  assert (E : apply_code_fixes w s
              = (inr (" Failed to apply code fixes: "
                      ++ str (CalledProcessError (signal_name w) returncode
                                ["black"; "."])),
                 after s [EvRun ["black"; "."] CLONE_DIR])).
  { unfold apply_code_fixes, apply_code_fixes_body, try_except, bind,
      subprocess_run_check, call, check_true.
    rewrite Hrun. destruct (Z.eqb_spec returncode 0); [contradiction |].
    reflexivity. }
  eexists; eexists. split; [reflexivity |]. split; [reflexivity |].
  split; [apply prefix_append |]. split; [exact E |].
  intros ev Hin. rewrite E in Hin. cbn in Hin.
  apply in_app_or in Hin. destruct Hin as [Hin | [<- | []]]; auto.
Qed.

Lemma apply_code_fixes_black_fails_witness :
  exists text result,
    text = "Command '['black', '.']' returned non-zero exit status 1."
    /\ result = " Failed to apply code fixes: " ++ text
    /\ String.prefix " Failed to apply code fixes: " result = true
    /\ apply_code_fixes Sample.black_fails Sample.fresh
       = (inr result, after Sample.fresh [EvRun ["black"; "."] CLONE_DIR])
    /\ forall ev,
         In ev (trace (snd (apply_code_fixes Sample.black_fails Sample.fresh))) ->
         In ev (trace Sample.fresh) \/ ev = EvRun ["black"; "."] CLONE_DIR.
Proof.
  refine (apply_code_fixes_black_fails Sample.black_fails Sample.fresh 1 _ _).
  - reflexivity.
  - discriminate.
Defined.

(** ** The commit watcher *)

Ltac open_watch :=
  unfold watch_github_commit, watch_github_commit_body, try_except, bind, call,
    path_exists, read_text, write_text, ret;
  cbn [marker log set_marker].

Ltac tidy :=
  repeat (cbv beta iota; cbn [marker log set_marker fst snd];
          try match goal with
              | H : marker ?s = _ |- context [marker ?s] => rewrite H
              end).

(** Brings the logs on both sides to one right-nested list. *)
Ltac traces :=
  unfold lookup_calls, build_calls, log, after, set_marker;
  cbn [trace marker];
  rewrite <- ?app_assoc; cbn [app].

(** Case analysis on [t] where the goal mentions it. *)
Ltac on t :=
  match goal with
  | |- context [t] => destruct t eqn:?
  end;
  tidy.

Lemma sha_eqb_true latest previous :
  sha_eqb latest previous = true <-> previous = Some latest.
Proof.
  destruct previous as [p |]; cbn; [| split; discriminate].
  rewrite String.eqb_eq. split; [now intros -> | now intros [= ->]].
Qed.

Lemma sha_eqb_false latest previous :
  previous <> Some latest -> sha_eqb latest previous = false.
Proof.
  intros Hne. destruct (sha_eqb latest previous) eqn:E; [| reflexivity].
  apply sha_eqb_true in E. contradiction.
Qed.

Lemma full_auto_fix_pipeline_targets cfg w :
  emits fixed_targets (full_auto_fix_pipeline cfg w).
Proof.
  unfold full_auto_fix_pipeline, get_sonar_issues, get_sonar_issues_body,
    apply_code_fixes, apply_code_fixes_body, commit_and_push,
    commit_and_push_body, raise_pr, raise_pr_body, subprocess_run_check.
  cbv zeta. walk; cbn; auto.
Qed.

(** The pipeline's value and calls are fixed by the configuration and the
    world; the calls start with the issue search and keep to the fixed
    targets. *)
Lemma full_auto_fix_pipeline_fixed cfg w :
  exists result evs,
    (forall s, full_auto_fix_pipeline cfg w s = (inr result, after s evs))
    /\ Forall fixed_targets evs
    /\ exists rest, evs = first_call_get_sonar_issues cfg :: rest.
Proof.
  destruct (full_auto_fix_pipeline_runs cfg w)
    as (r1 & r2 & r3 & r4 & evs1 & evs2 & evs3 & evs4 & _ & _ & _ & _ & H).
  destruct (full_auto_fix_pipeline_targets cfg w) as (r & evs & HP & H').
  do 2 eexists. split; [exact H |]. split; [| cbn [app]; eauto].
  specialize (H {| marker := None; trace := [] |}).
  rewrite H' in H. injection H as _ H. cbn [app] in H |- *. now rewrite <- H.
Qed.

(** Splits the watcher along every answer the world can give, one goal per
    path; [Hpipe] describes the pipeline. *)
Ltac watch_split cfg w branch s Hpipe :=
  open_watch;
  try on (watch_Github w (GITHUB_TOKEN cfg));
  try on (watch_get_repo w (GITHUB_REPO cfg));
  try on (watch_get_branch_sha w branch);
  try on (marker s);
  try on (watch_read w sha_file);
  try match goal with |- context [sha_eqb ?a ?b] => on (sha_eqb a b) end;
  try match goal with H : sha_eqb _ None = true |- _ => discriminate H end;
  try on (watch_get_workflow_runs w branch);
  try on (watch_totalCount w branch);
  try match goal with |- context [(0 <? ?n)%Z] => on (0 <? n)%Z end;
  try on (watch_first_run_conclusion w branch);
  try match goal with |- context [not_success ?c] => on (not_success c) end;
  try match goal with
      | |- context [watch_write w sha_file ?c] => on (watch_write w sha_file c)
      end;
  try (rewrite Hpipe; tidy).

(** Every way the watcher can end. *)
Lemma watch_result_cases cfg w branch s :
  (exists e, fst (watch_github_commit cfg w branch s)
             = inr (PDict [("error", PStr (str e))]))
  \/ (exists content,
        marker s = Some content
        /\ fst (watch_github_commit cfg w branch s)
           = inr (no_new_commits (stored_hash content)))
  \/ fst (watch_github_commit cfg w branch s) = inr no_run_found
  \/ (exists conclusion,
        fst (watch_github_commit cfg w branch s) = inr (build_not_green conclusion))
  \/ (exists latest result,
        fst (watch_github_commit cfg w branch s) = inr (commit_processed latest result)
        /\ forall s0, fst (full_auto_fix_pipeline cfg w s0) = inr result).
Proof.
  destruct (full_auto_fix_pipeline_fixed cfg w) as (result & evs & Hpipe & _).
  watch_split cfg w branch s Hpipe.
  all: try (now left; eexists).
  all: try (now do 2 right; left).
  all: try (now do 3 right; left; eexists).
  all: try (do 4 right; eexists; exists result; split;
            [reflexivity | intros; now rewrite Hpipe]).
  right; left. eexists. split; [reflexivity |].
  match goal with H : sha_eqb _ _ = true |- _ =>
    apply sha_eqb_true in H; injection H as H end.
  unfold stored_hash. now rewrite Heqb.
Qed.

Lemma not_success_true conclusion :
  conclusion <> Some "success" -> not_success conclusion = true.
Proof.
  destruct conclusion as [c |]; [| reflexivity]. intros Hne. cbn.
  destruct (String.eqb_spec c "success") as [-> | _]; [now elim Hne | reflexivity].
Qed.

(** The watcher stops early: the marker holds the head of the branch. *)
Lemma watch_sees_no_new_commit cfg w branch s content latest :
  branch_head cfg w branch latest ->
  marker s = Some content ->
  watch_read w sha_file = inr tt ->
  stored_hash content = latest ->
  watch_github_commit cfg w branch s
  = (inr (no_new_commits latest),
     after s (lookup_calls cfg branch ++ [EvRead sha_file])).
Proof.
  intros (H1 & H2 & H3) Hm Hr Hs. open_watch.
  rewrite H1, H2, H3. tidy. rewrite Hr. tidy.
  unfold stored_hash in Hs. rewrite Hs. cbn [sha_eqb].
  rewrite String.eqb_refl. tidy.
  unfold no_new_commits, after, lookup_calls, log. cbn [marker trace].
  now rewrite <- !app_assoc.
Qed.

(** C2, as the code has it: when the marker file exists and its stored hash
    is the head of the branch, the watcher returns the status " No new
    commits" (the literal starts with a space) with the head as
    latest_commit; the calls made are the repository and branch lookup and
    the read of the marker, none of them a call of the pipeline, and the
    marker is left as it was. *)
Theorem watch_no_new_commit cfg w branch s content latest :
  branch_head cfg w branch latest ->
  marker s = Some content ->
  watch_read w sha_file = inr tt ->
  stored_hash content = latest ->
  exists s',
    watch_github_commit cfg w branch s
    = (inr (PDict [("status", PStr " No new commits");
                   ("latest_commit", PStr latest)]), s')
    /\ s' = after s [EvGithub (GITHUB_TOKEN cfg); EvGetRepo (GITHUB_REPO cfg);
                     EvGetBranch branch; EvRead sha_file]
    /\ marker s' = marker s
    /\ forall ev, In ev (trace s') -> In ev (trace s) \/ past_the_checks ev = false.
Proof.
  intros Hhead Hm Hr Hs. eexists.
  split; [apply (watch_sees_no_new_commit cfg w branch s content latest); assumption |].
  split; [reflexivity |]. split; [reflexivity |].
  intros ev Hin. cbn in Hin. apply in_app_or in Hin.
  destruct Hin as [Hin | Hin]; [now left | right].
  cbn in Hin. destruct Hin as [<- | [<- | [<- | [<- | []]]]]; reflexivity.
Qed.

Lemma watch_no_new_commit_witness :
  exists s',
    watch_github_commit Sample.cfg Sample.green "main"
      (Sample.seen (Sample.head_main ++ String LF ""))
    = (inr (PDict [("status", PStr " No new commits");
                   ("latest_commit", PStr Sample.head_main)]), s')
    /\ s' = after (Sample.seen (Sample.head_main ++ String LF ""))
              [EvGithub "ghp_token"; EvGetRepo "octo/demo"; EvGetBranch "main";
               EvRead sha_file]
    /\ marker s' = marker (Sample.seen (Sample.head_main ++ String LF ""))
    /\ forall ev, In ev (trace s') ->
                  In ev (trace (Sample.seen (Sample.head_main ++ String LF "")))
                  \/ past_the_checks ev = false.
Proof.
  refine (watch_no_new_commit Sample.cfg Sample.green "main"
            (Sample.seen (Sample.head_main ++ String LF ""))
            (Sample.head_main ++ String LF "") Sample.head_main _ _ _ _).
  - repeat split.
  - reflexivity.
  - reflexivity.
  - reflexivity.
Defined.

(** C2 as stated fails on the status text: with the marker equal to the head
    of main, the status returned is " No new commits", not "No new commits". *)
Lemma no_new_commits_status_differs :
  branch_head Sample.cfg Sample.green "main" Sample.head_main
  /\ marker (Sample.seen Sample.head_main) = Some Sample.head_main
  /\ stored_hash Sample.head_main = Sample.head_main
  /\ fst (watch_github_commit Sample.cfg Sample.green "main"
            (Sample.seen Sample.head_main))
     <> inr (PDict [("status", PStr "No new commits");
                    ("latest_commit", PStr Sample.head_main)])
  /\ exists kvs,
       fst (watch_github_commit Sample.cfg Sample.green "main"
              (Sample.seen Sample.head_main)) = inr (PDict kvs)
       /\ lookup "status" kvs = Some (PStr " No new commits")
       /\ lookup "status" kvs <> Some (PStr "No new commits").
Proof.
  split; [repeat split |]. split; [reflexivity |]. split; [reflexivity |].
  split.
  - vm_compute. discriminate.
  - eexists. split; [vm_compute; reflexivity |].
    split; [reflexivity | vm_compute; discriminate].
Qed.

(** C3: a new commit whose build is not green leaves the marker as it was.
    With no workflow run the watcher returns the no-run-found result; with a
    latest run whose conclusion is not "success" it returns the failed-or-
    running result carrying that conclusion. *)
Theorem watch_build_not_green_keeps_marker cfg w branch s latest previous evs n :
  branch_head cfg w branch latest ->
  marker_reads w s previous evs ->
  previous <> Some latest ->
  watch_get_workflow_runs w branch = inr tt ->
  watch_totalCount w branch = inr n ->
  ((n <= 0)%Z ->
   exists s',
     watch_github_commit cfg w branch s = (inr no_run_found, s')
     /\ marker s' = marker s
     /\ trace s' = (trace s ++ lookup_calls cfg branch ++ evs
                    ++ [EvGetWorkflowRuns branch; EvTotalCount])%list)
  /\ (forall conclusion,
        (0 < n)%Z ->
        watch_first_run_conclusion w branch = inr conclusion ->
        conclusion <> Some "success" ->
        exists s',
          watch_github_commit cfg w branch s = (inr (build_not_green conclusion), s')
          /\ marker s' = marker s
          /\ trace s' = (trace s ++ lookup_calls cfg branch ++ evs
                         ++ build_calls branch)%list).
Proof.
  intros (H1 & H2 & H3) Hreads Hnew Hruns Hcount.
  apply sha_eqb_false in Hnew.
  split.
  - intros Hn. assert (Hlt : (0 <? n)%Z = false) by (apply Z.ltb_ge; lia).
    destruct Hreads as [Hm | content Hm Hr]; eexists; open_watch;
      rewrite H1, H2, H3; tidy; rewrite ?Hr; tidy;
      unfold stored_hash in Hnew; rewrite Hnew; tidy;
      rewrite Hruns, Hcount; tidy; rewrite Hlt; tidy;
      (split; [reflexivity |]); (split; [assumption || reflexivity |]);
      traces; reflexivity.
  - intros conclusion Hn Hfirst Hconc.
    assert (Hlt : (0 <? n)%Z = true) by (apply Z.ltb_lt; lia).
    apply not_success_true in Hconc.
    destruct Hreads as [Hm | content Hm Hr]; eexists; open_watch;
      rewrite H1, H2, H3; tidy; rewrite ?Hr; tidy;
      unfold stored_hash in Hnew; rewrite Hnew; tidy;
      rewrite Hruns, Hcount; tidy; rewrite Hlt; tidy;
      rewrite Hfirst; tidy; rewrite Hconc; tidy;
      (split; [reflexivity |]); (split; [assumption || reflexivity |]);
      traces; reflexivity.
Qed.

Lemma watch_build_not_green_keeps_marker_witness :
  (exists s',
     watch_github_commit Sample.cfg Sample.no_runs "main" Sample.fresh
     = (inr no_run_found, s')
     /\ marker s' = marker Sample.fresh
     /\ trace s' = (trace Sample.fresh ++ lookup_calls Sample.cfg "main" ++ []
                    ++ [EvGetWorkflowRuns "main"; EvTotalCount])%list)
  /\ (exists s',
        watch_github_commit Sample.cfg Sample.red "develop"
          (Sample.seen Sample.head_main)
        = (inr (build_not_green (Some "failure")), s')
        /\ marker s' = marker (Sample.seen Sample.head_main)
        /\ trace s' = (trace (Sample.seen Sample.head_main)
                       ++ lookup_calls Sample.cfg "develop" ++ [EvRead sha_file]
                       ++ build_calls "develop")%list).
Proof.
  split.
  - refine (proj1 (watch_build_not_green_keeps_marker Sample.cfg Sample.no_runs
                     "main" Sample.fresh Sample.head_main None [] 0 _ _ _ _ _) _).
    + repeat split.
    + apply marker_absent. reflexivity.
    + discriminate.
    + reflexivity.
    + reflexivity.
    + lia.
  - refine (proj2 (watch_build_not_green_keeps_marker Sample.cfg Sample.red
                     "develop" (Sample.seen Sample.head_main) Sample.head_develop
                     (Some (stored_hash Sample.head_main)) [EvRead sha_file] 3
                     _ _ _ _ _) (Some "failure") _ _ _).
    + repeat split.
    + apply marker_present; reflexivity.
    + vm_compute. discriminate.
    + reflexivity.
    + reflexivity.
    + lia.
    + reflexivity.
    + discriminate.
Defined.

(** C8: with no marker file the watcher never answers "no new commits",
    whatever the head of the branch is, and once the branch lookup has
    succeeded its next call is the listing of the workflow runs. *)
Theorem watch_without_marker cfg w branch s :
  marker s = None ->
  (forall latest,
     fst (watch_github_commit cfg w branch s) <> inr (no_new_commits latest))
  /\ (forall kvs,
        fst (watch_github_commit cfg w branch s) = inr (PDict kvs) ->
        lookup "status" kvs <> Some (PStr " No new commits"))
  /\ (forall latest,
        branch_head cfg w branch latest ->
        exists evs,
          trace (snd (watch_github_commit cfg w branch s))
          = (trace s ++ lookup_calls cfg branch
             ++ EvGetWorkflowRuns branch :: evs)%list).
Proof.
  intros Hm. split; [| split].
  - intros latest E.
    destruct (watch_result_cases cfg w branch s)
      as [(e & H) | [(content & Hc & _) | [H | [(c & H) | (l & r & H & _)]]]];
      try congruence; rewrite H in E; discriminate E.
  - intros kvs E.
    destruct (watch_result_cases cfg w branch s)
      as [(e & H) | [(content & Hc & _) | [H | [(c & H) | (l & r & H & _)]]]];
      try congruence; rewrite H in E; injection E as <-; cbn; discriminate.
  - intros latest (H1 & H2 & H3).
    destruct (full_auto_fix_pipeline_fixed cfg w) as (result & pevs & Hpipe & _).
    open_watch. rewrite H1, H2, H3. tidy.
    watch_split cfg w branch s Hpipe; traces; eexists; reflexivity.
Qed.

Lemma watch_without_marker_witness :
  (forall latest,
     fst (watch_github_commit Sample.cfg Sample.green "main" Sample.fresh)
     <> inr (no_new_commits latest))
  /\ (forall kvs,
        fst (watch_github_commit Sample.cfg Sample.green "main" Sample.fresh)
        = inr (PDict kvs) ->
        lookup "status" kvs <> Some (PStr " No new commits"))
  /\ (forall latest,
        branch_head Sample.cfg Sample.green "main" latest ->
        exists evs,
          trace (snd (watch_github_commit Sample.cfg Sample.green "main" Sample.fresh))
          = (trace Sample.fresh ++ lookup_calls Sample.cfg "main"
             ++ EvGetWorkflowRuns "main" :: evs)%list).
Proof.
  refine (watch_without_marker Sample.cfg Sample.green "main" Sample.fresh _).
  reflexivity.
Defined.

(** A hexadecimal hash reads back from the marker file as it was written. *)
Lemma hex_digit_not_space c : hex_digit c = true -> is_space c = false.
Proof.
  unfold hex_digit, is_space. cbv zeta.
  generalize (nat_of_ascii c). intros n H.
  repeat match goal with
         | |- context [(?a <=? ?b)%nat] => destruct (Nat.leb_spec a b)
         | |- context [(?a =? ?b)%nat] => destruct (Nat.eqb_spec a b)
         | H : context [(?a <=? ?b)%nat] |- _ => destruct (Nat.leb_spec a b)
         end; cbn in *; try reflexivity; try discriminate; lia.
Qed.

Lemma hex_digit_not_CR c : hex_digit c = true -> Ascii.eqb c CR = false.
Proof.
  intros H. destruct (Ascii.eqb_spec c CR) as [-> | _]; [| reflexivity].
  discriminate H.
Qed.

Lemma universal_newlines_hex s :
  commit_hash s = true -> universal_newlines s = s.
Proof.
  induction s as [| c s IH]; [reflexivity |]. cbn [commit_hash all_chars].
  intros H. apply andb_prop in H. destruct H as [Hc Hs].
  cbn [universal_newlines]. rewrite (hex_digit_not_CR c Hc).
  f_equal. now apply IH.
Qed.

Lemma rstrip_hex s : commit_hash s = true -> rstrip s = s.
Proof.
  induction s as [| c s IH]; [reflexivity |]. cbn [commit_hash all_chars].
  intros H. apply andb_prop in H. destruct H as [Hc Hs].
  cbn [rstrip]. rewrite (IH Hs), (hex_digit_not_space c Hc).
  now destruct s.
Qed.

Lemma stored_hash_hex s : commit_hash s = true -> stored_hash s = s.
Proof.
  intros H. unfold stored_hash, strip. rewrite (universal_newlines_hex s H).
  assert (Hl : lstrip s = s).
  { destruct s as [| c s]; [reflexivity |]. cbn [commit_hash all_chars] in H.
    apply andb_prop in H. destruct H as [Hc _].
    cbn [lstrip]. now rewrite (hex_digit_not_space c Hc). }
  rewrite Hl. now apply rstrip_hex.
Qed.

(** The watcher goes on: a new commit with a green build is saved and the pipeline
    run from the state with the marker already written. *)
Lemma watch_processes_commit cfg w branch s latest previous evs result pevs :
  branch_head cfg w branch latest ->
  marker_reads w s previous evs ->
  previous <> Some latest ->
  build_green w branch ->
  watch_write w sha_file latest = Written ->
  (forall s0, full_auto_fix_pipeline cfg w s0 = (inr result, after s0 pevs)) ->
  watch_github_commit cfg w branch s
  = (inr (commit_processed latest result),
     after (set_marker (Some latest)
              (after s (lookup_calls cfg branch ++ evs ++ build_calls branch
                        ++ [EvWrite sha_file latest])))
           pevs).
Proof.
  intros (H1 & H2 & H3) Hreads Hnew (Hruns & (n & Hcount & Hn) & Hfirst) Hw Hpipe.
  apply sha_eqb_false in Hnew.
  assert (Hlt : (0 <? n)%Z = true) by (apply Z.ltb_lt; lia).
  destruct Hreads as [Hm | content Hm Hr]; open_watch;
    rewrite H1, H2, H3; tidy; rewrite ?Hr; tidy;
    unfold stored_hash in Hnew; rewrite Hnew; tidy;
    rewrite Hruns, Hcount; tidy; rewrite Hlt; tidy;
    rewrite Hfirst; tidy; cbn [not_success String.eqb Ascii.eqb Bool.eqb negb];
    tidy; rewrite Hw; tidy; rewrite Hpipe; tidy;
    unfold commit_processed; f_equal; unfold after; traces; reflexivity.
Qed.

(** C9: when the build check succeeds and the write succeeds, the new hash is
    in the marker file before the first call of the pipeline, and still there
    on return whatever the four steps reported; a later run that finds the
    same head, a hexadecimal hash, then stops at "no new commits". *)
Theorem watch_persists_before_pipeline cfg w branch s latest previous evs :
  branch_head cfg w branch latest ->
  marker_reads w s previous evs ->
  previous <> Some latest ->
  build_green w branch ->
  watch_write w sha_file latest = Written ->
  exists result rest s_saved s',
    s_saved = set_marker (Some latest)
                (after s (lookup_calls cfg branch ++ evs ++ build_calls branch
                          ++ [EvWrite sha_file latest]))
    /\ marker s_saved = Some latest
    /\ full_auto_fix_pipeline cfg w s_saved = (inr result, s')
    /\ s' = after s_saved (first_call_get_sonar_issues cfg :: rest)
    /\ watch_github_commit cfg w branch s = (inr (commit_processed latest result), s')
    /\ marker s' = Some latest
    /\ forall w',
         branch_head cfg w' branch latest ->
         watch_read w' sha_file = inr tt ->
         commit_hash latest = true ->
         watch_github_commit cfg w' branch s'
         = (inr (no_new_commits latest),
            after s' (lookup_calls cfg branch ++ [EvRead sha_file])).
Proof.
  intros Hhead Hreads Hnew Hgreen Hw.
  destruct (full_auto_fix_pipeline_fixed cfg w)
    as (result & pevs & Hpipe & _ & rest & ->).
  exists result, rest. do 2 eexists.
  split; [reflexivity |]. split; [reflexivity |].
  split; [apply Hpipe |]. split; [reflexivity |].
  split; [now apply (watch_processes_commit cfg w branch s latest previous evs) |].
  split; [reflexivity |].
  intros w' Hhead' Hr' Hhex.
  apply (watch_sees_no_new_commit cfg w' branch _ latest latest);
    [assumption | reflexivity | assumption | now apply stored_hash_hex].
Qed.

Lemma watch_persists_before_pipeline_witness :
  exists result rest s_saved s',
    s_saved = set_marker (Some Sample.head_main)
                (after Sample.fresh
                   (lookup_calls Sample.cfg "main" ++ [] ++ build_calls "main"
                    ++ [EvWrite sha_file Sample.head_main]))
    /\ marker s_saved = Some Sample.head_main
    /\ full_auto_fix_pipeline Sample.cfg Sample.green_then_failing s_saved
       = (inr result, s')
    /\ s' = after s_saved (first_call_get_sonar_issues Sample.cfg :: rest)
    /\ watch_github_commit Sample.cfg Sample.green_then_failing "main" Sample.fresh
       = (inr (commit_processed Sample.head_main result), s')
    /\ marker s' = Some Sample.head_main
    /\ forall w',
         branch_head Sample.cfg w' "main" Sample.head_main ->
         watch_read w' sha_file = inr tt ->
         commit_hash Sample.head_main = true ->
         watch_github_commit Sample.cfg w' "main" s'
         = (inr (no_new_commits Sample.head_main),
            after s' (lookup_calls Sample.cfg "main" ++ [EvRead sha_file])).
Proof.
  refine (watch_persists_before_pipeline Sample.cfg Sample.green_then_failing
            "main" Sample.fresh Sample.head_main None [] _ _ _ _ _).
  - repeat split.
  - apply marker_absent. reflexivity.
  - discriminate.
  - split; [reflexivity |]. split; [| reflexivity].
    exists 3%Z. split; [reflexivity | lia].
  - reflexivity.
Defined.

(** C10: the pipeline does not depend on the watched branch.  In one world,
    it returns the same value and makes the same calls from any state; two
    runs of the watcher on different branches that reach it report the same
    pipeline result; and whatever branch is watched, the branch created and
    pushed is "auto-fix-sonar-issues" and the pull request goes from it into
    "main". *)
Theorem pipeline_ignores_watched_branch cfg w b1 b2 s1 s2 :
  (exists result evs,
     full_auto_fix_pipeline cfg w s1 = (inr result, after s1 evs)
     /\ full_auto_fix_pipeline cfg w s2 = (inr result, after s2 evs))
  /\ (forall r1 r2,
        pipeline_result_of (fst (watch_github_commit cfg w b1 s1)) = Some r1 ->
        pipeline_result_of (fst (watch_github_commit cfg w b2 s2)) = Some r2 ->
        r1 = r2)
  /\ (forall ev,
        In ev (trace (snd (watch_github_commit cfg w b1 s1))) ->
        In ev (trace s1) \/ fixed_targets ev).
Proof.
  destruct (full_auto_fix_pipeline_fixed cfg w) as (result & pevs & Hpipe & HP & _).
  split; [| split].
  - exists result, pevs. split; apply Hpipe.
  - assert (Hone : forall b s r,
               pipeline_result_of (fst (watch_github_commit cfg w b s)) = Some r ->
               r = result).
    { intros b s r E.
      destruct (watch_result_cases cfg w b s)
        as [(e & H) | [(content & _ & H) | [H | [(c & H) | (l & r' & H & Hr)]]]];
        rewrite H in E; cbn in E; try discriminate E.
      injection E as <-. specialize (Hr s). rewrite Hpipe in Hr.
      now injection Hr. }
    intros r1 r2 E1 E2. now rewrite (Hone _ _ _ E1), (Hone _ _ _ E2).
  - intros ev.
    watch_split cfg w b1 s1 Hpipe; traces; intros Hin;
      rewrite ?in_app_iff in Hin; cbn [In] in Hin;
      repeat match goal with
             | H : _ \/ _ |- _ => destruct H
             | H : False |- _ => destruct H
             end;
      subst; try (now left); try (right; exact I);
      right; eapply Forall_forall; eassumption.
Qed.

Lemma pipeline_ignores_watched_branch_witness :
  pipeline_result_of
    (fst (watch_github_commit Sample.cfg Sample.green "main" Sample.fresh))
  = Some green_pipeline_result
  /\ pipeline_result_of
       (fst (watch_github_commit Sample.cfg Sample.green "develop"
               (Sample.seen Sample.head_main)))
     = Some green_pipeline_result
  /\ green_pipeline_result = green_pipeline_result.
Proof.
  split; [vm_compute; reflexivity |]. split; [vm_compute; reflexivity |].
  refine (proj1 (proj2 (pipeline_ignores_watched_branch Sample.cfg Sample.green
                          "main" "develop" Sample.fresh
                          (Sample.seen Sample.head_main)))
            green_pipeline_result green_pipeline_result _ _);
    vm_compute; reflexivity.
Defined.

(** * Further properties of the tools *)

(** ** The issue fetcher on every shape of response *)

Lemma comprehension_length {A B} (f : A -> res B) xs ys :
  comprehension f xs = inr ys -> length ys = length xs.
Proof.
  revert ys. induction xs as [| x xs IH]; intros ys H.
  - injection H as <-. reflexivity.
  - cbn [comprehension] in H. destruct (f x) as [e | y]; [discriminate H |].
    cbn [res_bind] in H.
    destruct (comprehension f xs) as [e | ys']; [discriminate H |].
    injection H as <-. cbn. f_equal. now apply IH.
Qed.

Lemma project_issue_not_dict v :
  is_dict v = false -> project_issue v = inl (AttributeError (type_name v) "get").
Proof. destruct v; try reflexivity. discriminate. Qed.

Lemma comprehension_stops ds bad rest :
  is_dict bad = false ->
  comprehension project_issue (map PDict ds ++ bad :: rest)
  = inl (AttributeError (type_name bad) "get").
Proof.
  intros Hbad. induction ds as [| d ds IH].
  - cbn [map app comprehension]. now rewrite (project_issue_not_dict bad Hbad).
  - cbn [map app comprehension]. rewrite IH.
    unfold project_issue. now rewrite !get_dict.
Qed.

(** The entries after the tenth are counted but never looked at: when the
    first ten entries of a non-empty issue list are objects, the fetcher
    reports the length of the whole list and the summaries of those first
    entries, whatever the later entries are. *)
Theorem get_sonar_issues_looks_at_ten cfg w s body xs ds :
  successful_response cfg w (PDict body) ->
  lookup "issues" body = Some (PList xs) ->
  firstn 10 xs = map PDict ds ->
  ds <> [] ->
  get_sonar_issues cfg w s
  = (inr (issues_found (Z.of_nat (length xs)) (map issue_summary ds)),
     after s (sonar_calls cfg))
  /\ length (map issue_summary ds) = Nat.min 10 (length xs).
Proof.
  intros Hresp Hissues Hten Hds. split.
  - rewrite (get_sonar_issues_on_response cfg w s _ Hresp).
    unfold get. rewrite Hissues. cbn [res_bind].
    destruct xs as [| x xs]; [destruct ds; [now elim Hds | discriminate Hten] |].
    cbn [truthy negb length Nat.eqb res_bind len slice_to iter].
    rewrite Hten, comprehension_project_issue. reflexivity.
  - rewrite length_map, <- (length_map PDict ds), <- Hten. apply length_firstn.
Qed.

Lemma get_sonar_issues_looks_at_ten_witness :
  get_sonar_issues Sample.cfg
    (Variant.sonar (inr tt) (inr tt) (inr (Variant.body (PList Variant.ten_then_junk))))
    Sample.fresh
  = (inr (issues_found 12 (map issue_summary (firstn 10 Sample.issues15))),
     after Sample.fresh (sonar_calls Sample.cfg)).
Proof.
  refine (proj1 (get_sonar_issues_looks_at_ten Sample.cfg _ Sample.fresh
                   [("total", PInt 250); ("issues", PList Variant.ten_then_junk)]
                   Variant.ten_then_junk (firstn 10 Sample.issues15) _ _ _ _)).
  - repeat split.
  - reflexivity.
  - reflexivity.
  - discriminate.
Defined.

(** A response whose [issues] value is falsy (null, false, 0, an empty string
    or an empty object, as well as an empty list) is reported as "No issues
    found", not as an error. *)
Theorem get_sonar_issues_falsy_issues cfg w s body v :
  successful_response cfg w (PDict body) ->
  lookup "issues" body = Some v ->
  truthy v = false ->
  get_sonar_issues cfg w s = (inr no_issues_found, after s (sonar_calls cfg)).
Proof.
  intros Hresp Hissues Hv.
  rewrite (get_sonar_issues_on_response cfg w s _ Hresp).
  unfold get. rewrite Hissues. cbn [res_bind]. now rewrite Hv.
Qed.

Lemma get_sonar_issues_falsy_issues_witness :
  get_sonar_issues Sample.cfg
    (Variant.sonar (inr tt) (inr tt) (inr (Variant.body PNone))) Sample.fresh
  = (inr no_issues_found, after Sample.fresh (sonar_calls Sample.cfg)).
Proof.
  refine (get_sonar_issues_falsy_issues Sample.cfg _ Sample.fresh
            [("total", PInt 250); ("issues", PNone)] PNone _ _ _).
  - repeat split.
  - reflexivity.
  - reflexivity.
Defined.

(** A body that parses to anything but an object (a list, a string, a
    number, null) ends in the error result carrying the AttributeError of the
    failed [.get]. *)
Theorem get_sonar_issues_body_not_an_object cfg w s json :
  successful_response cfg w json ->
  is_dict json = false ->
  get_sonar_issues cfg w s
  = (inr (error_dict (AttributeError (type_name json) "get")),
     after s (sonar_calls cfg)).
Proof.
  intros Hresp Hjson.
  rewrite (get_sonar_issues_on_response cfg w s _ Hresp).
  destruct json; try reflexivity. discriminate Hjson.
Qed.

Lemma get_sonar_issues_body_not_an_object_witness :
  get_sonar_issues Sample.cfg
    (Variant.sonar (inr tt) (inr tt) (inr (PList []))) Sample.fresh
  = (inr (PDict [("error", PStr "'list' object has no attribute 'get'")]),
     after Sample.fresh (sonar_calls Sample.cfg)).
Proof.
  refine (get_sonar_issues_body_not_an_object Sample.cfg _ Sample.fresh
            (PList []) _ _).
  - repeat split.
  - reflexivity.
Defined.

Lemma chars_substring_nonempty c s n :
  exists rest, chars (substring 0 (S n) (String c s)) = PStr (String c "") :: rest.
Proof. cbn [substring chars]. eauto. Qed.

(** A truthy [issues] value that is not a list (a number, true, a non-empty
    string or object) always ends in an error result: "Issues found" is only
    ever reported for a list. *)
Theorem get_sonar_issues_issues_not_a_list cfg w s body v :
  successful_response cfg w (PDict body) ->
  lookup "issues" body = Some v ->
  truthy v = true ->
  is_list v = false ->
  exists e,
    get_sonar_issues cfg w s = (inr (error_dict e), after s (sonar_calls cfg)).
Proof.
  intros Hresp Hissues Hv Hlist.
  rewrite (get_sonar_issues_on_response cfg w s _ Hresp).
  unfold get. rewrite Hissues. cbn [res_bind]. rewrite Hv. cbn [negb].
  destruct v as [| b | z | bits | str | xs | kvs];
    try discriminate; try (eexists; reflexivity).
  - destruct str as [| c str]; [discriminate Hv |].
    cbn [len res_bind slice_to iter].
    destruct (chars_substring_nonempty c str 9) as (rest & ->).
    eexists. reflexivity.
Qed.

Lemma get_sonar_issues_issues_not_a_list_witness :
  exists e,
    get_sonar_issues Sample.cfg
      (Variant.sonar (inr tt) (inr tt) (inr (Variant.body (PStr "none")))) Sample.fresh
    = (inr (error_dict e), after Sample.fresh (sonar_calls Sample.cfg)).
Proof.
  refine (get_sonar_issues_issues_not_a_list Sample.cfg _ Sample.fresh
            [("total", PInt 250); ("issues", PStr "none")] (PStr "none") _ _ _ _).
  - repeat split.
  - reflexivity.
  - reflexivity.
  - reflexivity.
Defined.

(** One entry among the first ten that is no object spoils the whole answer:
    the result is the error for the first such entry, and the summaries of
    the objects before it are lost. *)
Theorem get_sonar_issues_entry_not_an_object cfg w s body xs ds bad rest :
  successful_response cfg w (PDict body) ->
  lookup "issues" body = Some (PList xs) ->
  firstn 10 xs = (map PDict ds ++ bad :: rest)%list ->
  is_dict bad = false ->
  get_sonar_issues cfg w s
  = (inr (error_dict (AttributeError (type_name bad) "get")),
     after s (sonar_calls cfg)).
Proof.
  intros Hresp Hissues Hten Hbad.
  rewrite (get_sonar_issues_on_response cfg w s _ Hresp).
  unfold get. rewrite Hissues. cbn [res_bind].
  destruct xs as [| x xs]; [now destruct ds |].
  cbn [truthy negb length Nat.eqb res_bind len slice_to iter].
  rewrite Hten, (comprehension_stops ds bad rest Hbad). reflexivity.
Qed.

Lemma get_sonar_issues_entry_not_an_object_witness :
  get_sonar_issues Sample.cfg
    (Variant.sonar (inr tt) (inr tt)
       (inr (Variant.body (PList Variant.two_then_string))))
    Sample.fresh
  = (inr (PDict [("error", PStr "'str' object has no attribute 'get'")]),
     after Sample.fresh (sonar_calls Sample.cfg)).
Proof.
  refine (get_sonar_issues_entry_not_an_object Sample.cfg _ Sample.fresh
            [("total", PInt 250); ("issues", PList Variant.two_then_string)]
            Variant.two_then_string (firstn 2 Sample.issues15)
            (PStr "oops") [PDict []] _ _ _ _).
  - repeat split.
  - reflexivity.
  - reflexivity.
  - reflexivity.
Defined.

(** The fetcher stops at the first call that raises: a failed request is not
    followed by [raise_for_status], and a rejected status is not followed by
    parsing the body; each failure comes back as the error result. *)
Theorem get_sonar_issues_stops_at_failure cfg w s :
  let url := SONARQUBE_URL cfg ++ "/api/issues/search" in
  let params := [("componentKeys", PROJECT_KEY cfg); ("resolved", "false");
                 ("ps", "100")] in
  let request := EvRequestsGet url params (SONARQUBE_TOKEN cfg, "") in
  (forall e,
     requests_get w url params (SONARQUBE_TOKEN cfg, "") = inl e ->
     get_sonar_issues cfg w s = (inr (error_dict e), after s [request]))
  /\ (forall e,
        requests_get w url params (SONARQUBE_TOKEN cfg, "") = inr tt ->
        raise_for_status w = inl e ->
        get_sonar_issues cfg w s
        = (inr (error_dict e), after s [request; EvRaiseForStatus]))
  /\ (forall e,
        requests_get w url params (SONARQUBE_TOKEN cfg, "") = inr tt ->
        raise_for_status w = inr tt ->
        response_json w = inl e ->
        get_sonar_issues cfg w s
        = (inr (error_dict e), after s [request; EvRaiseForStatus; EvJson])).
Proof.
  cbv zeta. repeat split; intros e;
    unfold get_sonar_issues, get_sonar_issues_body, try_except, bind, call, AUTH;
    cbv zeta.
  - intros ->. reflexivity.
  - intros -> ->. unfold after, log; cbn [marker trace].
    now rewrite <- !app_assoc.
  - intros -> -> ->. unfold after, log; cbn [marker trace].
    now rewrite <- !app_assoc.
Qed.

Lemma get_sonar_issues_stops_at_failure_witness :
  get_sonar_issues Sample.cfg
    (Variant.sonar (inl (Exception "Connection refused")) (inr tt)
       (inr (Variant.body (PList []))))
    Sample.fresh
  = (inr (PDict [("error", PStr "Connection refused")]),
     after Sample.fresh [first_call_get_sonar_issues Sample.cfg])
  /\ get_sonar_issues Sample.cfg
       (Variant.sonar (inr tt) (inl (Exception "401 Client Error: Unauthorized"))
          (inr (Variant.body (PList []))))
       Sample.fresh
     = (inr (PDict [("error", PStr "401 Client Error: Unauthorized")]),
        after Sample.fresh
          [first_call_get_sonar_issues Sample.cfg; EvRaiseForStatus]).
Proof.
  split.
  - refine (proj1 (get_sonar_issues_stops_at_failure Sample.cfg _ Sample.fresh)
              (Exception "Connection refused") _).
    reflexivity.
  - refine (proj1 (proj2 (get_sonar_issues_stops_at_failure Sample.cfg _ Sample.fresh))
              (Exception "401 Client Error: Unauthorized") _ _);
      reflexivity.
Defined.

(** Of a parsed body the fetcher reads the [issues] entry and nothing else:
    two responses that agree on it give the same result, so the count it
    reports is the length of the list received, not the [total] the server
    states. *)
Theorem get_sonar_issues_reads_only_issues cfg w1 w2 s1 s2 body1 body2 :
  successful_response cfg w1 (PDict body1) ->
  successful_response cfg w2 (PDict body2) ->
  hashable_slices w1 = hashable_slices w2 ->
  lookup "issues" body1 = lookup "issues" body2 ->
  fst (get_sonar_issues cfg w1 s1) = fst (get_sonar_issues cfg w2 s2).
Proof.
  intros H1 H2 Hpy Hissues.
  rewrite (get_sonar_issues_on_response cfg w1 s1 _ H1),
          (get_sonar_issues_on_response cfg w2 s2 _ H2).
  unfold get. now rewrite Hissues, Hpy.
Qed.

Lemma get_sonar_issues_reads_only_issues_witness :
  fst (get_sonar_issues Sample.cfg Sample.green Sample.fresh)
  = fst (get_sonar_issues Sample.cfg
           (Variant.sonar (inr tt) (inr tt)
              (inr (Variant.body (PList (map PDict Sample.issues15)))))
           (Sample.seen Sample.head_main)).
Proof.
  refine (get_sonar_issues_reads_only_issues Sample.cfg _ _ _ _
            [("total", PInt 15); ("issues", PList (map PDict Sample.issues15))]
            [("total", PInt 250); ("issues", PList (map PDict Sample.issues15))]
            _ _ _ _).
  - repeat split.
  - repeat split.
  - reflexivity.
  - reflexivity.
Defined.

Lemma comprehension_project_issue_keys xs ys :
  comprehension project_issue xs = inr ys ->
  Forall (fun summary => exists kvs, summary = PDict kvs /\ keys kvs = summary_keys) ys.
Proof.
  revert ys. induction xs as [| x xs IH]; intros ys H.
  - injection H as <-. constructor.
  - cbn [comprehension] in H.
    destruct (project_issue x) as [e | y] eqn:Ex; [discriminate H |].
    cbn [res_bind] in H.
    destruct (comprehension project_issue xs) as [e | ys']; [discriminate H |].
    injection H as <-. constructor; [| now apply IH].
    destruct x; try discriminate Ex.
    unfold project_issue in Ex. rewrite !get_dict in Ex. cbn [res_bind] in Ex.
    injection Ex as <-. eexists. split; reflexivity.
Qed.

(** Whatever the quality server answers, the fetcher returns one of three
    dictionaries: the error result, "No issues found" with total 0 and no
    issues, or "Issues found" with a positive total and between one and ten
    summaries, never more than the total, each with exactly the five
    summary keys. *)
Theorem get_sonar_issues_result_shape cfg w s :
  (exists e, fst (get_sonar_issues cfg w s) = inr (error_dict e))
  \/ fst (get_sonar_issues cfg w s) = inr no_issues_found
  \/ exists total summaries,
       fst (get_sonar_issues cfg w s) = inr (issues_found total summaries)
       /\ 1 <= length summaries <= 10
       /\ (Z.of_nat (length summaries) <= total)%Z
       /\ Forall (fun summary =>
                    exists kvs, summary = PDict kvs /\ keys kvs = summary_keys)
                 summaries.
Proof.
  destruct (requests_get w (SONARQUBE_URL cfg ++ "/api/issues/search")
              [("componentKeys", PROJECT_KEY cfg); ("resolved", "false");
               ("ps", "100")] (AUTH cfg)) as [e | []] eqn:Hget.
  { left. exists e. unfold get_sonar_issues, get_sonar_issues_body, try_except,
      bind, call. cbv zeta. now rewrite Hget. }
  destruct (raise_for_status w) as [e | []] eqn:Hstatus.
  { left. exists e. unfold get_sonar_issues, get_sonar_issues_body, try_except,
      bind, call. cbv zeta. now rewrite Hget, Hstatus. }
  destruct (response_json w) as [e | json] eqn:Hjson.
  { left. exists e. unfold get_sonar_issues, get_sonar_issues_body, try_except,
      bind, call. cbv zeta. now rewrite Hget, Hstatus, Hjson. }
  rewrite (get_sonar_issues_on_response cfg w s json (conj Hget (conj Hstatus Hjson))).
  cbn [fst].
  destruct (get json "issues" (PList [])) as [e | v]; [left; now exists e |].
  cbn [res_bind]. destruct (truthy v) eqn:Hv; [| right; left; reflexivity].
  cbn [negb].
  destruct v as [| b | z | bits | str | xs | kvs];
    cbn [len res_bind slice_to iter]; try (left; eexists; reflexivity).
  - destruct str as [| c str]; [discriminate Hv |].
    left. cbn [substring chars comprehension project_issue get res_bind].
    eexists. reflexivity.
  - destruct (comprehension project_issue (firstn 10 xs)) as [e | summaries] eqn:Hcomp;
      [left; now exists e |].
    right; right. exists (Z.of_nat (length xs)), summaries. split; [reflexivity |].
    pose proof (comprehension_length _ _ _ Hcomp) as Hn.
    pose proof (comprehension_project_issue_keys _ _ Hcomp) as Hkeys.
    rewrite length_firstn in Hn.
    destruct xs as [| x xs]; [discriminate Hv |]. cbn [length] in *.
    repeat split; try assumption; lia.
Qed.

(** ** The fix applier and the publisher *)

Lemma check_true_ok w argv o : check_true w argv o = inr tt <-> o = Exited 0.
Proof.
  unfold check_true. destruct o as [rc | e]; [| split; discriminate].
  destruct (Z.eqb_spec rc 0) as [-> | Hne]; split; try reflexivity; try discriminate.
  intros [= ->]. now elim Hne.
Qed.

Lemma check_true_raises w argv o :
  o <> Exited 0 -> exists e, check_true w argv o = inl e.
Proof.
  intros Hne. destruct (check_true w argv o) as [e | []] eqn:E; [eauto |].
  apply check_true_ok in E. contradiction.
Qed.

Lemma inr_eq {A B} (x y : B) : @inr A B x = inr y -> x = y.
Proof. congruence. Qed.

Lemma failed_fixes_differs text :
  " Failed to apply code fixes: " ++ text <> formatted_message.
Proof. cbn. discriminate. Qed.

Lemma failed_push_differs text :
  " Git commit/push failed: " ++ text <> pushed_message.
Proof. cbn. discriminate. Qed.

(** The fix applier reports success exactly when black and isort both leave
    return code 0; in every other case the answer is the failure marker
    followed by the text of the exception. *)
Theorem apply_code_fixes_succeeds_iff w s :
  (fst (apply_code_fixes w s) = inr formatted_message
   <-> subprocess_run w ["black"; "."] CLONE_DIR = Exited 0
       /\ subprocess_run w ["isort"; "."] CLONE_DIR = Exited 0)
  /\ (fst (apply_code_fixes w s) = inr formatted_message
      \/ exists e,
           fst (apply_code_fixes w s) = inr (" Failed to apply code fixes: " ++ str e)).
Proof.
  unfold apply_code_fixes, apply_code_fixes_body, try_except, bind,
    subprocess_run_check, call, ret.
  destruct (check_true w ["black"; "."] (subprocess_run w ["black"; "."] CLONE_DIR))
    as [e | []] eqn:Eb.
  { cbn [fst]. split; [| right; now exists e]. split.
    - intros H. apply inr_eq in H. now apply failed_fixes_differs in H.
    - intros [Hb _]. apply (check_true_ok w ["black"; "."]) in Hb. congruence. }
  destruct (check_true w ["isort"; "."] (subprocess_run w ["isort"; "."] CLONE_DIR))
    as [e | []] eqn:Ei.
  { cbn [fst]. split; [| right; now exists e]. split.
    - intros H. apply inr_eq in H. now apply failed_fixes_differs in H.
    - intros [_ Hi]. apply (check_true_ok w ["isort"; "."]) in Hi. congruence. }
  cbn [fst]. split; [| now left]. split; [| reflexivity].
  intros _. split; eapply check_true_ok; eassumption.
Qed.

(** When black succeeds and isort exits non-zero, the answer names the isort
    command, and black has already rewritten the working copy: both commands
    were run and nothing is undone. *)
Theorem apply_code_fixes_isort_fails w s returncode :
  subprocess_run w ["black"; "."] CLONE_DIR = Exited 0 ->
  subprocess_run w ["isort"; "."] CLONE_DIR = Exited returncode ->
  returncode <> 0%Z ->
  apply_code_fixes w s
  = (inr (" Failed to apply code fixes: "
          ++ str (CalledProcessError (signal_name w) returncode ["isort"; "."])),
     after s (runs_in_clone [["black"; "."]; ["isort"; "."]])).
Proof.
  intros Hb Hi Hrc.
  unfold apply_code_fixes, apply_code_fixes_body, try_except, bind,
    subprocess_run_check, call, check_true.
  rewrite Hb, Hi. cbn [Z.eqb].
  destruct (Z.eqb_spec returncode 0); [contradiction |].
  unfold after, log, runs_in_clone; cbn [marker trace map].
  now rewrite <- !app_assoc.
Qed.

Lemma apply_code_fixes_isort_fails_witness :
  apply_code_fixes (Variant.commands (Variant.exits "isort" 2)) Sample.fresh
  = (inr " Failed to apply code fixes: Command '['isort', '.']' returned non-zero exit status 2.",
     after Sample.fresh (runs_in_clone [["black"; "."]; ["isort"; "."]])).
Proof.
  refine (apply_code_fixes_isort_fails (Variant.commands (Variant.exits "isort" 2))
            Sample.fresh 2 _ _ _).
  - reflexivity.
  - reflexivity.
  - discriminate.
Defined.

(** The publisher stops at the first git command that exits non-zero: the
    commands before it have run and stay in effect, the ones after it are
    never started, and the answer carries the failing command line. *)
Theorem commit_and_push_stops_at_failure w s k argv returncode :
  nth_error git_commands k = Some argv ->
  (forall i earlier,
     i < k -> nth_error git_commands i = Some earlier ->
     subprocess_run w earlier CLONE_DIR = Exited 0) ->
  subprocess_run w argv CLONE_DIR = Exited returncode ->
  returncode <> 0%Z ->
  commit_and_push w s
  = (inr (" Git commit/push failed: "
          ++ str (CalledProcessError (signal_name w) returncode argv)),
     after s (runs_in_clone (firstn (S k) git_commands))).
Proof.
  intros Hk Hearlier Hrun Hrc.
  assert (Hfail : check_true w argv (Exited returncode)
                  = inl (CalledProcessError (signal_name w) returncode argv)).
  { unfold check_true. destruct (Z.eqb_spec returncode 0); [contradiction | reflexivity]. }
  unfold commit_and_push, commit_and_push_body, try_except, bind,
    subprocess_run_check, call.
  destruct k as [| [| [| [| k]]]]; cbn in Hk;
    try (destruct k; discriminate Hk);
    apply (f_equal (fun o => match o with Some a => a | None => [] end)) in Hk;
    subst argv;
    repeat match goal with
           | |- context [subprocess_run w ?a CLONE_DIR] =>
               first [ rewrite Hrun, Hfail
                     | rewrite (Hearlier 0 a ltac:(lia) eq_refl)
                     | rewrite (Hearlier 1 a ltac:(lia) eq_refl)
                     | rewrite (Hearlier 2 a ltac:(lia) eq_refl) ];
               cbn [check_true Z.eqb]
           end;
    unfold after, log, runs_in_clone; cbn [marker trace map firstn git_commands];
    rewrite <- ?app_assoc; reflexivity.
Qed.

Lemma commit_and_push_stops_at_failure_witness :
  commit_and_push (Variant.commands Variant.nothing_to_commit) Sample.fresh
  = (inr " Git commit/push failed: Command '['git', 'commit', '-m', 'fix: auto-fix based on SonarQube issues']' returned non-zero exit status 1.",
     after Sample.fresh
       (runs_in_clone [["git"; "checkout"; "-b"; "auto-fix-sonar-issues"];
                       ["git"; "add"; "."];
                       ["git"; "commit"; "-m";
                        "fix: auto-fix based on SonarQube issues"]])).
Proof.
  refine (commit_and_push_stops_at_failure
            (Variant.commands Variant.nothing_to_commit) Sample.fresh 2
            ["git"; "commit"; "-m"; "fix: auto-fix based on SonarQube issues"] 1
            _ _ _ _).
  - reflexivity.
  - intros i earlier Hi Hnth.
    destruct i as [| [| i]]; [| | lia]; injection Hnth as <-; reflexivity.
  - reflexivity.
  - discriminate.
Defined.

(** The publisher reports the push exactly when all four git commands leave
    return code 0, and then exactly those four were run, in order. *)
Theorem commit_and_push_succeeds_iff w s :
  (fst (commit_and_push w s) = inr pushed_message
   <-> Forall (fun argv => subprocess_run w argv CLONE_DIR = Exited 0) git_commands)
  /\ (fst (commit_and_push w s) = inr pushed_message ->
      snd (commit_and_push w s) = after s (runs_in_clone git_commands)).
Proof.
  unfold commit_and_push, commit_and_push_body, try_except, bind,
    subprocess_run_check, call, ret, git_commands.
  repeat match goal with
         | |- context [check_true w ?a (subprocess_run w ?a CLONE_DIR)] =>
             let E := fresh "E" in
             destruct (check_true w a (subprocess_run w a CLONE_DIR))
               as [? | []] eqn:E;
             [ cbn [fst snd]; split;
               [ split;
                 [ intros H; apply inr_eq in H; now apply failed_push_differs in H
                 | intros H;
                   repeat match goal with
                          | H : Forall _ (_ :: _) |- _ =>
                              let Hh := fresh "Hh" in
                              apply Forall_cons_iff in H; destruct H as [Hh H];
                              try (apply (check_true_ok w a) in Hh; congruence)
                          end ]
               | intros H; apply inr_eq in H; now apply failed_push_differs in H ]
             | ]
         end.
  cbn [fst snd]. split; [split; [| reflexivity] |].
  - intros _.
    repeat (constructor; [eapply check_true_ok; eassumption |]). constructor.
  - intros _. unfold after, log, runs_in_clone; cbn [marker trace map].
    now rewrite <- !app_assoc.
Qed.

(** The pull-request step answers with a url exactly when the session, the
    repository lookup and the creation all succeed, and the url is the one
    the hosting service returned; otherwise it answers with the error
    result. *)
Theorem raise_pr_url_iff_created cfg w s :
  (forall html_url,
     fst (raise_pr cfg w s) = inr (pr_created html_url)
     <-> pr_Github w (GITHUB_TOKEN cfg) = inr tt
         /\ pr_get_repo w (GITHUB_REPO cfg) = inr tt
         /\ create_pull w "Auto-fix: SonarQube violations"
              "This PR auto-fixes code formatting issues based on SonarQube results."
              NEW_BRANCH "main" = inr html_url)
  /\ ((exists html_url, fst (raise_pr cfg w s) = inr (pr_created html_url))
      \/ exists e, fst (raise_pr cfg w s) = inr (error_dict e)).
Proof.
  unfold raise_pr, raise_pr_body, try_except, bind, call, ret. cbv zeta.
  destruct (pr_Github w (GITHUB_TOKEN cfg)) as [e | []].
  { cbn [fst]. split; [| right; now exists e].
    intros url. split; [discriminate | intros (H & _); discriminate H]. }
  destruct (pr_get_repo w (GITHUB_REPO cfg)) as [e | []].
  { cbn [fst]. split; [| right; now exists e].
    intros url. split; [discriminate | intros (_ & H & _); discriminate H]. }
  destruct (create_pull w _ _ NEW_BRANCH "main") as [e | url0].
  { cbn [fst]. split; [| right; now exists e].
    intros url. split; [discriminate | intros (_ & _ & H); discriminate H]. }
  cbn [fst]. split; [| left; now exists url0].
  intros url. split.
  - intros [= ->]. repeat split.
  - intros (_ & _ & [= ->]). reflexivity.
Qed.

(** A pull request the hosting service refuses (one is already open for the
    branch, say) is reported as the error result after all three calls were
    made. *)
Theorem raise_pr_refused cfg w s e :
  pr_Github w (GITHUB_TOKEN cfg) = inr tt ->
  pr_get_repo w (GITHUB_REPO cfg) = inr tt ->
  create_pull w "Auto-fix: SonarQube violations"
    "This PR auto-fixes code formatting issues based on SonarQube results."
    NEW_BRANCH "main" = inl e ->
  raise_pr cfg w s = (inr (error_dict e), after s (pr_calls cfg)).
Proof.
  intros Hg Hr Hc.
  unfold raise_pr, raise_pr_body, try_except, bind, call, ret. cbv zeta.
  rewrite Hg, Hr, Hc.
  unfold after, log, pr_calls; cbn [marker trace].
  now rewrite <- !app_assoc.
Qed.

Lemma raise_pr_refused_witness :
  raise_pr Sample.cfg Variant.pull_refused Sample.fresh
  = (inr (PDict [("error", PStr "422 A pull request already exists")]),
     after Sample.fresh (pr_calls Sample.cfg)).
Proof.
  refine (raise_pr_refused Sample.cfg Variant.pull_refused Sample.fresh
            (Exception "422 A pull request already exists") _ _ _);
    reflexivity.
Defined.

(** The pipeline asks for the pull request whatever became of the earlier
    steps: as soon as the session and the repository lookup of the last step
    succeed, [create_pull] is called, even if fetching, formatting or pushing
    failed. *)
Theorem full_auto_fix_pipeline_always_asks_for_pr cfg w s :
  pr_Github w (GITHUB_TOKEN cfg) = inr tt ->
  pr_get_repo w (GITHUB_REPO cfg) = inr tt ->
  In (EvCreatePull "Auto-fix: SonarQube violations"
        "This PR auto-fixes code formatting issues based on SonarQube results."
        "auto-fix-sonar-issues" "main")
     (trace (snd (full_auto_fix_pipeline cfg w s))).
Proof.
  intros Hg Hr.
  destruct (full_auto_fix_pipeline_runs cfg w)
    as (r1 & r2 & r3 & r4 & evs1 & evs2 & evs3 & evs4 & _ & _ & _ & H4 & H).
  rewrite H. cbn [snd after trace].
  assert (E : first_call_raise_pr cfg :: evs4 = pr_calls cfg).
  { specialize (H4 {| marker := None; trace := [] |}).
    unfold raise_pr, raise_pr_body, try_except, bind, call, ret in H4.
    cbv zeta in H4. rewrite Hg, Hr in H4.
    destruct (create_pull w _ _ NEW_BRANCH "main");
      apply (f_equal (fun p => trace (snd p))) in H4; cbn in H4;
      now rewrite <- H4. }
  rewrite !in_app_iff. do 3 right. rewrite E. cbn. auto.
Qed.

Lemma full_auto_fix_pipeline_always_asks_for_pr_witness :
  In (EvCreatePull "Auto-fix: SonarQube violations"
        "This PR auto-fixes code formatting issues based on SonarQube results."
        "auto-fix-sonar-issues" "main")
     (trace (snd (full_auto_fix_pipeline Sample.cfg Sample.green_then_failing
                    Sample.fresh))).
Proof.
  refine (full_auto_fix_pipeline_always_asks_for_pr Sample.cfg
            Sample.green_then_failing Sample.fresh _ _); reflexivity.
Defined.

(** ** The commit watcher off the main paths *)

(** When the branch lookup fails (no session, unknown repository or unknown
    branch) the watcher answers with the error result; it has not read the
    marker, asked for workflow runs or written anything. *)
Theorem watch_lookup_fails cfg w branch s :
  (forall latest, ~ branch_head cfg w branch latest) ->
  exists e s',
    watch_github_commit cfg w branch s = (inr (error_dict e), s')
    /\ marker s' = marker s
    /\ forall ev, In ev (trace s') -> In ev (trace s) \/ In ev (lookup_calls cfg branch).
Proof.
  intros Hno. open_watch.
  destruct (watch_Github w (GITHUB_TOKEN cfg)) as [e | []] eqn:H1; tidy.
  { exists e. eexists. split; [reflexivity |]. split; [reflexivity |].
    intros ev Hin. cbn in Hin. apply in_app_or in Hin. cbn in *. tauto. }
  destruct (watch_get_repo w (GITHUB_REPO cfg)) as [e | []] eqn:H2; tidy.
  { exists e. eexists. split; [reflexivity |]. split; [reflexivity |].
    intros ev Hin. cbn in Hin. rewrite !in_app_iff in Hin. cbn in *. tauto. }
  destruct (watch_get_branch_sha w branch) as [e | latest] eqn:H3; tidy.
  { exists e. eexists. split; [reflexivity |]. split; [reflexivity |].
    intros ev Hin. cbn in Hin. rewrite !in_app_iff in Hin. cbn in *. tauto. }
  elim (Hno latest). repeat split; assumption.
Qed.

Lemma watch_lookup_fails_witness :
  exists e s',
    watch_github_commit Sample.cfg Sample.green "release" Sample.fresh
    = (inr (error_dict e), s')
    /\ marker s' = marker Sample.fresh
    /\ forall ev, In ev (trace s') ->
                  In ev (trace Sample.fresh) \/ In ev (lookup_calls Sample.cfg "release").
Proof.
  refine (watch_lookup_fails Sample.cfg Sample.green "release" Sample.fresh _).
  intros latest (_ & _ & H). discriminate H.
Defined.

(** A marker file that exists but cannot be read ends the run with the error
    result before any build check; the file is left as it is. *)
Theorem watch_marker_unreadable cfg w branch s latest content e :
  branch_head cfg w branch latest ->
  marker s = Some content ->
  watch_read w sha_file = inl e ->
  watch_github_commit cfg w branch s
  = (inr (error_dict e), after s (lookup_calls cfg branch ++ [EvRead sha_file])).
Proof.
  intros (H1 & H2 & H3) Hm Hr. open_watch.
  rewrite H1, H2, H3. tidy. rewrite Hr. tidy.
  unfold error_dict, after. traces. reflexivity.
Qed.

Lemma watch_marker_unreadable_witness :
  watch_github_commit Sample.cfg
    (Variant.watcher (inr tt) (inr tt) (inl (Exception "[Errno 13] Permission denied: 'last_commit.txt'")))
    "main" (Sample.seen Sample.head_develop)
  = (inr (PDict [("error", PStr "[Errno 13] Permission denied: 'last_commit.txt'")]),
     after (Sample.seen Sample.head_develop)
       (lookup_calls Sample.cfg "main" ++ [EvRead sha_file])).
Proof.
  refine (watch_marker_unreadable Sample.cfg _ "main"
            (Sample.seen Sample.head_develop) Sample.head_main
            Sample.head_develop
            (Exception "[Errno 13] Permission denied: 'last_commit.txt'") _ _ _).
  - repeat split.
  - reflexivity.
  - reflexivity.
Defined.

(** When the marker cannot be written the pipeline is not run: the watcher
    answers with the error result and its last call is the write.  If
    [open] itself failed the marker is as before, so the commit is looked at
    again next time; if the failure came after [open] had truncated the
    file, the marker is left empty. *)
Theorem watch_write_fails cfg w branch s latest previous evs e :
  branch_head cfg w branch latest ->
  marker_reads w s previous evs ->
  previous <> Some latest ->
  build_green w branch ->
  (watch_write w sha_file latest = OpenRaises e ->
   watch_github_commit cfg w branch s
   = (inr (error_dict e),
      after s (lookup_calls cfg branch ++ evs ++ build_calls branch
               ++ [EvWrite sha_file latest])))
  /\ (watch_write w sha_file latest = WriteRaises e ->
      watch_github_commit cfg w branch s
      = (inr (error_dict e),
         set_marker (Some "")
           (after s (lookup_calls cfg branch ++ evs ++ build_calls branch
                     ++ [EvWrite sha_file latest])))).
Proof.
  intros (H1 & H2 & H3) Hreads Hnew (Hruns & (n & Hcount & Hn) & Hfirst).
  apply sha_eqb_false in Hnew.
  assert (Hlt : (0 <? n)%Z = true) by (apply Z.ltb_lt; lia).
  split; intros Hw;
    destruct Hreads as [Hm | content Hm Hr]; open_watch;
    rewrite H1, H2, H3; tidy; rewrite ?Hr; tidy;
    unfold stored_hash in Hnew; rewrite Hnew; tidy;
    rewrite Hruns, Hcount; tidy; rewrite Hlt; tidy;
    rewrite Hfirst; tidy; cbn [not_success String.eqb Ascii.eqb Bool.eqb negb];
    tidy; rewrite Hw; tidy;
    unfold error_dict, after, set_marker; traces; reflexivity.
Qed.

Lemma watch_write_fails_witness :
  watch_github_commit Sample.cfg
    (Variant.write_fails (OpenRaises (Exception "[Errno 30] Read-only file system")))
    "main" Sample.fresh
  = (inr (PDict [("error", PStr "[Errno 30] Read-only file system")]),
     after Sample.fresh
       (lookup_calls Sample.cfg "main" ++ [] ++ build_calls "main"
        ++ [EvWrite sha_file Sample.head_main])).
Proof.
  refine (proj1 (watch_write_fails Sample.cfg _ "main" Sample.fresh
                   Sample.head_main None []
                   (Exception "[Errno 30] Read-only file system") _ _ _ _) _).
  - repeat split.
  - apply marker_absent. reflexivity.
  - discriminate.
  - split; [reflexivity |]. split; [| reflexivity].
    exists 3%Z. split; [reflexivity | lia].
  - reflexivity.
Defined.

Lemma not_success_false conclusion :
  not_success conclusion = false -> conclusion = Some "success".
Proof.
  destruct conclusion as [c |]; [| discriminate]. cbn.
  destruct (String.eqb_spec c "success") as [-> | _]; [reflexivity | discriminate].
Qed.

(** The watcher touches the marker only to record the head of the branch,
    and only after the latest workflow run was found with conclusion
    "success": in any world, either the marker is as before, or the write of
    the head was attempted behind a green build and the marker holds the head
    (or is empty, if the write broke off). *)
Theorem watch_marker_invariant cfg w branch s :
  marker (snd (watch_github_commit cfg w branch s)) = marker s
  \/ exists latest n,
       watch_get_branch_sha w branch = inr latest
       /\ watch_totalCount w branch = inr n /\ (0 < n)%Z
       /\ watch_first_run_conclusion w branch = inr (Some "success")
       /\ In (EvWrite sha_file latest)
             (trace (snd (watch_github_commit cfg w branch s)))
       /\ (marker (snd (watch_github_commit cfg w branch s)) = Some latest
           \/ marker (snd (watch_github_commit cfg w branch s)) = Some "").
Proof.
  destruct (full_auto_fix_pipeline_fixed cfg w) as (result & pevs & Hpipe & _).
  watch_split cfg w branch s Hpipe;
    try (left; cbn [after marker]; (reflexivity || assumption || (symmetry; assumption)));
    right;
    match goal with
    | H : not_success ?o = false |- _ => apply not_success_false in H; subst o
    end;
    match goal with
    | H : (0 <? ?n)%Z = true |- _ => apply Z.ltb_lt in H
    end;
    do 2 eexists;
    (split; [reflexivity |]); (split; [reflexivity |]); (split; [assumption |]);
    (split; [reflexivity |]);
    (split; [traces; rewrite ?in_app_iff; cbn [In]; tauto |]);
    cbn [after marker set_marker]; tauto.
Qed.

(** ** Reading the marker back *)

Lemma universal_newlines_hex_app h t :
  commit_hash h = true -> universal_newlines (h ++ t) = h ++ universal_newlines t.
Proof.
  induction h as [| c h IH]; [reflexivity |]. cbn [commit_hash all_chars].
  intros H. apply andb_prop in H. destruct H as [Hc Hh].
  cbn [append universal_newlines]. rewrite (hex_digit_not_CR c Hc).
  f_equal. now apply IH.
Qed.

Lemma universal_newlines_spaces_upto n t :
  String.length t <= n ->
  all_chars is_space t = true -> all_chars is_space (universal_newlines t) = true.
Proof.
  revert t. induction n as [| n IH]; intros t Hlen Ht.
  - destruct t; [reflexivity | cbn in Hlen; lia].
  - destruct t as [| c t]; [reflexivity |].
    cbn [all_chars] in Ht. apply andb_prop in Ht. destruct Ht as [Hc Ht].
    cbn [String.length] in Hlen. cbn [universal_newlines].
    destruct (Ascii.eqb c CR).
    + cbn [all_chars]. apply andb_true_intro. split; [reflexivity |].
      destruct t as [| c' t']; [reflexivity |].
      cbn [all_chars] in Ht. apply andb_prop in Ht. destruct Ht as [Hc' Ht'].
      cbn [String.length] in Hlen.
      destruct (Ascii.eqb c' LF).
      * apply IH; [lia | assumption].
      * apply IH; [cbn [String.length]; lia |].
        cbn [all_chars]. now rewrite Hc', Ht'.
    + cbn [all_chars]. rewrite Hc. apply IH; [lia | assumption].
Qed.

Lemma rstrip_spaces t : all_chars is_space t = true -> rstrip t = "".
Proof.
  induction t as [| c t IH]; [reflexivity |]. cbn [all_chars].
  intros H. apply andb_prop in H. destruct H as [Hc Ht].
  cbn [rstrip]. now rewrite (IH Ht), Hc.
Qed.

Lemma lstrip_spaces t : all_chars is_space t = true -> lstrip t = "".
Proof.
  induction t as [| c t IH]; [reflexivity |]. cbn [all_chars].
  intros H. apply andb_prop in H. destruct H as [Hc Ht].
  cbn [lstrip]. rewrite Hc. now apply IH.
Qed.

Lemma rstrip_hex_app h t :
  commit_hash h = true -> rstrip t = "" -> rstrip (h ++ t) = h.
Proof.
  intros Hh Ht. induction h as [| c h IH]; [exact Ht |].
  cbn [commit_hash all_chars] in Hh. apply andb_prop in Hh. destruct Hh as [Hc Hh].
  cbn [append rstrip]. rewrite (IH Hh), (hex_digit_not_space c Hc).
  now destruct h.
Qed.

Lemma stored_hash_padded h padding :
  commit_hash h = true -> all_chars is_space padding = true ->
  stored_hash (h ++ padding) = h.
Proof.
  intros Hh Hp. unfold stored_hash, strip.
  rewrite (universal_newlines_hex_app h padding Hh).
  pose proof (universal_newlines_spaces_upto _ padding (le_n _) Hp) as Hp'.
  destruct h as [| c h].
  - cbn [append]. now rewrite (lstrip_spaces _ Hp').
  - assert (Hc : is_space c = false).
    { cbn [commit_hash all_chars] in Hh. apply andb_prop in Hh.
      now apply hex_digit_not_space. }
    cbn [append lstrip]. rewrite Hc.
    apply (rstrip_hex_app (String c h)); [assumption | now apply rstrip_spaces].
Qed.

(** A marker file that holds the head of the branch followed by white space
    (the newline an editor or [echo] leaves, a Windows line end) still
    counts as the same commit: the watcher answers "no new commits" and
    stops. *)
Theorem watch_marker_trailing_whitespace cfg w branch s latest padding :
  branch_head cfg w branch latest ->
  commit_hash latest = true ->
  all_chars is_space padding = true ->
  marker s = Some (latest ++ padding) ->
  watch_read w sha_file = inr tt ->
  watch_github_commit cfg w branch s
  = (inr (no_new_commits latest),
     after s (lookup_calls cfg branch ++ [EvRead sha_file])).
Proof.
  intros Hhead Hhex Hpad Hm Hr.
  apply (watch_sees_no_new_commit cfg w branch s (latest ++ padding) latest);
    try assumption.
  now apply stored_hash_padded.
Qed.

Lemma watch_marker_trailing_whitespace_witness :
  watch_github_commit Sample.cfg Sample.green "main"
    (Sample.seen (Sample.head_main ++ String CR (String LF "")))
  = (inr (no_new_commits Sample.head_main),
     after (Sample.seen (Sample.head_main ++ String CR (String LF "")))
       (lookup_calls Sample.cfg "main" ++ [EvRead sha_file])).
Proof.
  refine (watch_marker_trailing_whitespace Sample.cfg Sample.green "main" _
            Sample.head_main (String CR (String LF "")) _ _ _ _ _).
  - repeat split.
  - reflexivity.
  - reflexivity.
  - reflexivity.
  - reflexivity.
Defined.

(** The watcher always hands back a dictionary that has either an [error]
    field or a [status] field, never both and never neither. *)
Theorem watch_result_error_or_status cfg w branch s :
  exists kvs,
    fst (watch_github_commit cfg w branch s) = inr (PDict kvs)
    /\ ((lookup "error" kvs <> None /\ lookup "status" kvs = None)
        \/ (lookup "error" kvs = None /\ lookup "status" kvs <> None)).
Proof.
  destruct (watch_result_cases cfg w branch s)
    as [(e & H) | [(content & _ & H) | [H | [(c & H) | (l & r & H & _)]]]];
    rewrite H; eexists; (split; [reflexivity |]);
    [left | right | right | right | right]; split;
    solve [reflexivity | discriminate].
Qed.
